(** * Tobii eye-tracking pipeline: the Tableau integration scripts

    A shallow embedding of

      - [tableau-integration/scripts/build_hyper_extracts.py]
      - [tableau-integration/scripts/validate_csv_schemas.py]
      - [tableau-integration/scripts/package_tdsx.py]

    together with the parts of the Python runtime these scripts lean on
    ([int], [float], [datetime.strptime], [fnmatch.fnmatch],
    [csv.DictReader], [zipfile.ZipFile]).

    Conventions of the embedding.

      - A Python [str] is a [string]; every character is read as a code
        point below 128.  Characters above 127 are neither digits, nor
        white space, nor letters here (CPython would accept some of them
        as digits or white space).
      - A Python [float] is a [spec_float] of binary64 format
        ([prec = 53], [emax = 1024]), rounded to nearest even as CPython's
        correctly rounded [strtod] does.
      - A Python exception is a value of [exc]; [try ... except:] is
        [try_except].
      - The platform is POSIX: [os.path.normcase] is the identity and the
        path separator is [/].
      - Of the Tableau Hyper API the embedding keeps what the script
        shows: a [Name] is made from a non-empty [str] and is equal to
        another [Name] only; creating a table may raise, and is a
        parameter of [insert_csv].

    Part I holds the definitions, Part II the properties. *)

From Stdlib Require Import ZArith Strings.Ascii Floats.SpecFloat.
From stdpp Require Import gmap strings list fin_maps.

Local Open Scope Z_scope.

(* ===================================================================== *)
(** * Part I: the embedding                                               *)
(* ===================================================================== *)

(** ** Exceptions *)

Inductive pyexc : Type :=
  | ValueError
  | OverflowError
  | FileNotFoundError
  | HyperException.

Inductive exc (A : Type) : Type :=
  | Ret (a : A)
  | Raise (e : pyexc).
Arguments Ret {A} a.
Arguments Raise {A} e.

#[global] Instance exc_ret : MRet exc := @Ret.

#[global] Instance exc_bind : MBind exc := fun A B k m =>
  match m with
  | Ret a => k a
  | Raise e => Raise e
  end.

(** [try: m  except: h] with a bare [except]. *)
Definition try_except {A : Type} (m : exc A) (h : exc A) : exc A :=
  match m with
  | Ret a => Ret a
  | Raise _ => h
  end.

Definition succeeds {A : Type} (m : exc A) : bool :=
  match m with
  | Ret _ => true
  | Raise _ => false
  end.

(** ** Characters and strings of the Python runtime *)

Module Py.

Definition code (c : ascii) : Z := Z.of_N (N_of_ascii c).

Definition NUL : ascii := ascii_of_N 0.

Definition is_digit (c : ascii) : bool := (48 <=? code c) && (code c <=? 57).
Definition digit_val (c : ascii) : Z := code c - 48.

(** [Py_ISSPACE]: the white space that [int] and [float] strip. *)
Definition is_space (c : ascii) : bool :=
  ((9 <=? code c) && (code c <=? 13)) || (code c =? 32).

(** [str.isspace] on one character, which is what [\s] of [re] matches. *)
Definition is_unicode_space (c : ascii) : bool :=
  is_space c || ((28 <=? code c) && (code c <=? 31)).

Definition is_upper (c : ascii) : bool := (65 <=? code c) && (code c <=? 90).

Definition tolower (c : ascii) : ascii :=
  if is_upper c then ascii_of_N (Z.to_N (code c + 32)) else c.

(** [str.lower] *)
Fixpoint lower (s : string) : string :=
  match s with
  | EmptyString => EmptyString
  | String c s' => String (tolower c) (lower s')
  end.

(** Truth value of a string: [if v]. *)
Definition truthy (s : string) : bool :=
  match s with
  | EmptyString => false
  | String _ _ => true
  end.

Fixpoint lstrip (s : string) : string :=
  match s with
  | String c s' => if is_space c then lstrip s' else s
  | EmptyString => EmptyString
  end.

(** Splits off the longest prefix of characters satisfying [p]. *)
Fixpoint span (p : ascii -> bool) (s : string) : string * string :=
  match s with
  | String c s' =>
      if p c then let '(a, b) := span p s' in (String c a, b)
      else (EmptyString, s)
  | EmptyString => (EmptyString, EmptyString)
  end.

Fixpoint all_chars (p : ascii -> bool) (s : string) : bool :=
  match s with
  | String c s' => p c && all_chars p s'
  | EmptyString => true
  end.

(** Drops trailing white space, but never the first character
    ([while s < last - 1 and Py_ISSPACE(last[-1])]). *)
Fixpoint rstrip_tail (s : string) : string :=
  match s with
  | EmptyString => EmptyString
  | String c s' =>
      if all_chars is_space s' then
        (if is_space c then EmptyString else String c EmptyString)
      else String c (rstrip_tail s')
  end.

Definition rstrip_keep1 (s : string) : string :=
  match s with
  | EmptyString => EmptyString
  | String c s' => String c (rstrip_tail s')
  end.

(** Value of a run of decimal digits, most significant first. *)
Fixpoint digits_value (acc : Z) (s : string) : Z :=
  match s with
  | String c s' => digits_value (10 * acc + digit_val c) s'
  | EmptyString => acc
  end.

(** The underscore rule of numeric literals: an underscore stands only
    between two digits.  Returns the text with the underscores taken
    out, as [_Py_string_to_number_with_underscores] does. *)
Fixpoint strip_underscores (prev : ascii) (s : string) : option string :=
  match s with
  | EmptyString => if Ascii.eqb prev "_" then None else Some EmptyString
  | String c s' =>
      if Ascii.eqb c "_" then
        if is_digit prev then strip_underscores c s' else None
      else
        if Ascii.eqb prev "_" && negb (is_digit c) then None
        else String c <$> strip_underscores c s'
  end.

Definition take_sign (s : string) : bool * string :=
  match s with
  | String "-" s' => (true, s')
  | String "+" s' => (false, s')
  | _ => (false, s)
  end.

(** *** [int(s)] for a string, base 10 *)

(** [sys.int_info.default_max_str_digits] *)
Definition MAX_STR_DIGITS : nat := 4300.

Definition is_digit_or_us (c : ascii) : bool := is_digit c || Ascii.eqb c "_".

Definition int_of_str (s : string) : exc Z :=
  let '(neg, body) := take_sign (lstrip s) in
  let '(run, rest) := span is_digit_or_us body in
  match strip_underscores NUL run with
  | Some (String d ds as digits) =>
      if all_chars is_space rest then
        if (String.length digits <=? MAX_STR_DIGITS)%nat then
          Ret (let v := digits_value 0 digits in if neg then - v else v)
        else Raise ValueError
      else Raise ValueError
  | _ => Raise ValueError
  end.

(** *** [float(s)] for a string *)

Definition prec : Z := 53.
Definition emax : Z := 1024.

(** Correctly rounded [(-1)^neg * m * 10^e10]. *)
Definition b64_of_decimal (neg : bool) (m : Z) (e10 : Z) : spec_float :=
  match m with
  | Zpos p =>
      if 0 <=? e10 then
        binary_round prec emax neg (p * Z.to_pos (10 ^ e10)) 0
      else
        SFdiv prec emax (S754_finite neg p 0)
                        (S754_finite false (Z.to_pos (10 ^ (- e10))) 0)
  | _ => S754_zero neg
  end.

(** Case-insensitive prefix match of [_Py_parse_inf_or_nan]. *)
Fixpoint ci_prefix (t s : string) : option string :=
  match t with
  | EmptyString => Some s
  | String ct t' =>
      match s with
      | String cs s' => if Ascii.eqb (tolower cs) ct then ci_prefix t' s' else None
      | EmptyString => None
      end
  end.

Definition parse_inf_or_nan (neg : bool) (s : string) : option spec_float :=
  match ci_prefix "inf" s with
  | Some r =>
      let r' := match ci_prefix "inity" r with Some r2 => r2 | None => r end in
      if truthy r' then None else Some (S754_infinity neg)
  | None =>
      match ci_prefix "nan" s with
      | Some EmptyString => Some S754_nan
      | _ => None
      end
  end.

Definition is_e (c : ascii) : bool := Ascii.eqb c "e" || Ascii.eqb c "E".

(** The exponent part: empty, or [e], an optional sign and at least one
    digit, up to the end of the text. *)
Definition parse_exponent (s : string) : option Z :=
  match s with
  | EmptyString => Some 0
  | String c s' =>
      if is_e c then
        let '(eneg, ds) := take_sign s' in
        if truthy ds && all_chars is_digit ds then
          Some (let v := digits_value 0 ds in if eneg then - v else v)
        else None
      else None
  end.

(** The decimal grammar of [_Py_dg_strtod]: digits, an optional point
    and digits, an optional exponent; at least one digit before the
    exponent. *)
Definition parse_decimal (neg : bool) (s : string) : option spec_float :=
  let '(ip, r1) := span is_digit s in
  let '(fp, r2) :=
    match r1 with
    | String "." r => span is_digit r
    | _ => (EmptyString, r1)
    end in
  if truthy ip || truthy fp then
    match parse_exponent r2 with
    | Some e =>
        Some (b64_of_decimal neg (digits_value 0 (ip +:+ fp))
                             (e - Z.of_nat (String.length fp)))
    | None => None
    end
  else None.

Definition has_underscore (s : string) : bool :=
  negb (all_chars (fun c => negb (Ascii.eqb c "_")) s).

Definition float_of_str (s : string) : exc spec_float :=
  match rstrip_keep1 (lstrip s) with
  | EmptyString => Raise ValueError
  | body =>
      match (if has_underscore body then strip_underscores NUL body
             else Some body) with
      | None => Raise ValueError
      | Some txt =>
          let '(neg, num) := take_sign txt in
          match parse_decimal neg num with
          | Some f => Ret f
          | None =>
              match parse_inf_or_nan neg num with
              | Some f => Ret f
              | None => Raise ValueError
              end
          end
      end
  end.

(** *** [int(x)] for a float: truncation toward zero *)

Definition int_of_float (f : spec_float) : exc Z :=
  match f with
  | S754_zero _ => Ret 0
  | S754_infinity _ => Raise OverflowError
  | S754_nan => Raise ValueError
  | S754_finite s m e =>
      let mag := if 0 <=? e then Zpos m * 2 ^ e else Zpos m / 2 ^ (- e) in
      Ret (if s then - mag else mag)
  end.

Definition is_finite (f : spec_float) : bool :=
  match f with
  | S754_zero _ | S754_finite _ _ _ => true
  | _ => false
  end.

End Py.

(** ** [datetime.datetime.strptime]

    [_strptime] turns the format into a regular expression, matches it
    at the start of the text with [re.IGNORECASE], insists that the match
    covers the whole text, and then builds the date, which validates the
    fields.  The expression is matched as [re] does: alternatives in
    order, the first match wins. *)

Module Strptime.

Inductive re : Type :=
  | Chr (p : ascii -> bool)
  | Seq (r1 r2 : re)
  | Alt (r1 r2 : re)
  | Plus (p : ascii -> bool)
  | Group (name : ascii) (r : re).

(** Groups matched so far, the latest first. *)
Definition groups : Type := list (ascii * string).

Fixpoint prefix (n : nat) (s : string) : string :=
  match n, s with
  | S n', String c s' => String c (prefix n' s')
  | _, _ => EmptyString
  end.

Section Matcher.
Context {A : Type}.

(** Greedy [p*]: the longest run first, then shorter ones. *)
Fixpoint star (p : ascii -> bool) (s : string) (k : string -> option A)
  : option A :=
  match s with
  | String c s' =>
      if p c then
        match star p s' k with
        | Some a => Some a
        | None => k s
        end
      else k s
  | EmptyString => k s
  end.

Fixpoint run (r : re) (s : string) (g : groups)
    (k : string -> groups -> option A) : option A :=
  match r with
  | Chr p =>
      match s with
      | String c s' => if p c then k s' g else None
      | EmptyString => None
      end
  | Seq r1 r2 => run r1 s g (fun s' g' => run r2 s' g' k)
  | Alt r1 r2 =>
      match run r1 s g k with
      | Some a => Some a
      | None => run r2 s g k
      end
  | Plus p =>
      match s with
      | String c s' => if p c then star p s' (fun s2 => k s2 g) else None
      | EmptyString => None
      end
  | Group n r1 =>
      run r1 s g (fun s' g' =>
        k s' ((n, prefix (String.length s - String.length s') s) :: g'))
  end.
End Matcher.

(** [regex.match(data_string)]: the rest of the text and the groups. *)
Definition re_match (r : re) (s : string) : option (string * groups) :=
  run r s [] (fun s' g => Some (s', g)).

Definition digit : re := Chr Py.is_digit.
Definition rng (lo hi : ascii) : re :=
  Chr (fun c => (Py.code lo <=? Py.code c) && (Py.code c <=? Py.code hi)).
(** A literal of the format, under [IGNORECASE]. *)
Definition lit (x : ascii) : re :=
  Chr (fun c => Ascii.eqb (Py.tolower c) (Py.tolower x)).

(** The directive table of [TimeRE], for the directives in use. *)
Definition directive (d : ascii) : option re :=
  if Ascii.eqb d "d" then
    Some (Group "d" (Alt (Seq (lit "3") (rng "0" "1"))
                    (Alt (Seq (rng "1" "2") digit)
                    (Alt (Seq (lit "0") (rng "1" "9"))
                    (Alt (rng "1" "9")
                         (Seq (lit " ") (rng "1" "9")))))))
  else if Ascii.eqb d "m" then
    Some (Group "m" (Alt (Seq (lit "1") (rng "0" "2"))
                    (Alt (Seq (lit "0") (rng "1" "9"))
                         (rng "1" "9"))))
  else if Ascii.eqb d "H" then
    Some (Group "H" (Alt (Seq (lit "2") (rng "0" "3"))
                    (Alt (Seq (rng "0" "1") digit)
                         digit)))
  else if Ascii.eqb d "M" then
    Some (Group "M" (Alt (Seq (rng "0" "5") digit) digit))
  else if Ascii.eqb d "S" then
    Some (Group "S" (Alt (Seq (lit "6") (rng "0" "1"))
                    (Alt (Seq (rng "0" "5") digit)
                         digit)))
  else if Ascii.eqb d "Y" then
    Some (Group "Y" (Seq digit (Seq digit (Seq digit digit))))
  else None.

(** [TimeRE.pattern]: a run of white space in the format becomes
    [\s+], a directive its expression, anything else a literal.
    [None] is the [ValueError] of a bad directive. *)
Fixpoint pattern (prev_space : bool) (fmt : string) : option (list re) :=
  match fmt with
  | EmptyString => Some []
  | String "%" (String d rest) =>
      r ← directive d; rs ← pattern false rest; Some (r :: rs)
  | String "%" EmptyString => None
  | String c rest =>
      if Py.is_unicode_space c then
        rs ← pattern true rest;
        Some (if prev_space then rs else Plus Py.is_unicode_space :: rs)
      else
        rs ← pattern false rest; Some (lit c :: rs)
  end.

Fixpoint seq_all (rs : list re) : option re :=
  match rs with
  | [] => None
  | [r] => Some r
  | r :: rs' => Seq r <$> seq_all rs'
  end.

Record datetime : Type := mk_datetime {
  year : Z; month : Z; day : Z; hour : Z; minute : Z; second : Z
}.

Definition isleap (y : Z) : bool :=
  (y mod 4 =? 0) && (negb (y mod 100 =? 0) || (y mod 400 =? 0)).

Definition days_in_month (y m : Z) : Z :=
  if m =? 2 then (if isleap y then 29 else 28)
  else if (m =? 4) || (m =? 6) || (m =? 9) || (m =? 11) then 30
  else 31.

(** The constructor [datetime(year, month, day, hour, minute, second)]. *)
Definition make_datetime (y mo d h mi s : Z) : exc datetime :=
  if (1 <=? y) && (y <=? 9999) && (1 <=? mo) && (mo <=? 12)
     && (1 <=? d) && (d <=? days_in_month y mo)
     && (0 <=? h) && (h <=? 23) && (0 <=? mi) && (mi <=? 59)
     && (0 <=? s) && (s <=? 59)
  then Ret (mk_datetime y mo d h mi s)
  else Raise ValueError.

Fixpoint group (n : ascii) (g : groups) : option string :=
  match g with
  | [] => None
  | (n', v) :: g' => if Ascii.eqb n n' then Some v else group n g'
  end.

(** The value of a group, or the default of [_strptime] when the
    format has no such directive. *)
Definition field (n : ascii) (dflt : Z) (g : groups) : exc Z :=
  match group n g with
  | Some v => Py.int_of_str v
  | None => Ret dflt
  end.

Definition strptime (data_string fmt : string) : exc datetime :=
  match pattern false fmt ≫= seq_all with
  | None => Raise ValueError
  | Some r =>
      match re_match r data_string with
      | Some (EmptyString, g) =>
          y ← field "Y" 1900 g;
          mo ← field "m" 1 g;
          d ← field "d" 1 g;
          h ← field "H" 0 g;
          mi ← field "M" 0 g;
          s ← field "S" 0 g;
          make_datetime y mo d h mi s
      | _ => Raise ValueError
      end
  end.

End Strptime.

(** ** [fnmatch.fnmatch]

    [fnmatch.translate] turns a shell pattern into a regular expression;
    the items below are the pieces of that expression.  [normcase] is
    the identity on POSIX, so [fnmatch] is [fnmatchcase]. *)

Module Fnmatch.

Fixpoint chars (s : string) : list ascii :=
  match s with
  | EmptyString => []
  | String c s' => c :: chars s'
  end.

Inductive item : Type :=
  | STAR                                          (* [*] *)
  | AnyChar                                       (* [.] *)
  | Never                                         (* [(?!)] *)
  | Lit (c : ascii)
  | CharSet (neg : bool) (chunks : list (list ascii)).

Definition is_hyphen (c : ascii) : bool := Ascii.eqb c "-".

(** Cuts the bracket text at the hyphens that make ranges.  [skip]
    counts the characters that may not be such a hyphen: the search
    starts at [i+1] ([i+2] after [!]) and resumes three places after
    each hyphen found.  A hyphen left at the very end is put back onto
    the last chunk. *)
Fixpoint split_chunks (skip : nat) (acc : list ascii) (l : list ascii)
  : list (list ascii) :=
  match l with
  | [] => [rev acc]
  | c :: l' =>
      match skip with
      | O =>
          if is_hyphen c then
            match l' with
            | [] => [rev acc ++ [c]]
            | _ => rev acc :: split_chunks 2 [] l'
            end
          else split_chunks O (c :: acc) l'
      | S n => split_chunks n (c :: acc) l'
      end
  end.

(** Removes the empty ranges, from the right as the source loop does. *)
Definition merge_chunk (a : list ascii) (rest : list (list ascii))
  : list (list ascii) :=
  match rest with
  | b :: bs =>
      match last a, head b with
      | Some x, Some y =>
          if Py.code y <? Py.code x then (removelast a ++ tail b) :: bs
          else a :: rest
      | _, _ => a :: rest
      end
  | [] => [a]
  end.

Definition remove_empty_ranges (chunks : list (list ascii))
  : list (list ascii) :=
  foldr merge_chunk [] chunks.

(** The item for the text [stuff] between the brackets. *)
Definition bracket_item (stuff : list ascii) : item :=
  let chunks :=
    if existsb is_hyphen stuff then
      remove_empty_ranges
        (split_chunks (match stuff with "!"%char :: _ => 2 | _ => 1 end)%nat
                      [] stuff)
    else [stuff] in
  match chunks with
  | [] | [[]] => Never
  | ["!"%char :: []] => AnyChar
  | ("!"%char :: a) :: rest => CharSet true (a :: rest)
  | _ => CharSet false chunks
  end.

(** Looks for the closing bracket: [Some (stuff, rest)], or [None]
    when the bracket is never closed.  An [!] and then a [\]] right
    after the opening bracket do not close it. *)
Fixpoint find_close (l : list ascii) : option (list ascii * list ascii) :=
  match l with
  | [] => None
  | c :: l' =>
      if Ascii.eqb c "]" then Some ([], l')
      else '(a, b) ← find_close l'; Some (c :: a, b)
  end.

Definition scan_bracket (l : list ascii)
  : option (list ascii * list ascii) :=
  let '(p1, l1) :=
    match l with
    | "!"%char :: l' => (["!"%char], l')
    | _ => ([], l)
    end in
  let '(p2, l2) :=
    match l1 with
    | "]"%char :: l' => (["]"%char], l')
    | _ => ([], l1)
    end in
  '(a, b) ← find_close l2; Some (p1 ++ p2 ++ a, b).

Definition ends_with_star (res : list item) : bool :=
  match last res with
  | Some STAR => true
  | _ => false
  end.

Fixpoint translate_go (fuel : nat) (res : list item) (pat : list ascii)
  : list item :=
  match fuel, pat with
  | S fuel', c :: rest =>
      if Ascii.eqb c "*" then
        translate_go fuel' (if ends_with_star res then res else res ++ [STAR])
                     rest
      else if Ascii.eqb c "?" then translate_go fuel' (res ++ [AnyChar]) rest
      else if Ascii.eqb c "[" then
        match scan_bracket rest with
        | None => translate_go fuel' (res ++ [Lit c]) rest
        | Some (stuff, rest') =>
            translate_go fuel' (res ++ [bracket_item stuff]) rest'
        end
      else translate_go fuel' (res ++ [Lit c]) rest
  | _, _ => res
  end.

Definition translate (pat : string) : list item :=
  translate_go (String.length pat) [] (chars pat).

Definition in_range (lo hi c : ascii) : bool :=
  (Py.code lo <=? Py.code c) && (Py.code c <=? Py.code hi).

(** What the joining hyphen between two chunks contributes. *)
Definition junction (a b : list ascii) (c : ascii) : bool :=
  match last a, head b with
  | Some lo, Some hi => in_range lo hi c
  | None, _ => is_hyphen c
  | _, None => false
  end.

Fixpoint class_mem (c : ascii) (chunks : list (list ascii)) : bool :=
  match chunks with
  | [] => false
  | a :: rest =>
      existsb (Ascii.eqb c) a
      || match rest with
         | b :: _ => junction a b c
         | [] => false
         end
      || class_mem c rest
  end.

Definition item_ok (it : item) (c : ascii) : bool :=
  match it with
  | STAR | AnyChar => true
  | Never => false
  | Lit x => Ascii.eqb c x
  | CharSet neg chunks => xorb neg (class_mem c chunks)
  end.

Fixpoint match_items (items : list item) (name : list ascii) : bool :=
  match items with
  | [] => match name with [] => true | _ => false end
  | STAR :: rest =>
      (fix try (n : list ascii) : bool :=
         match_items rest n
         || match n with
            | [] => false
            | _ :: n' => try n'
            end) name
  | it :: rest =>
      match name with
      | c :: n' => item_ok it c && match_items rest n'
      | [] => false
      end
  end.

Definition fnmatchcase (name pat : string) : bool :=
  match_items (translate pat) (chars name).

Definition normcase (s : string) : string := s.

Definition fnmatch (name pat : string) : bool :=
  fnmatchcase (normcase name) (normcase pat).

End Fnmatch.

(** ** [csv.DictReader]

    A CSV file is taken as [csv.reader] reads it, one record per
    physical line (no quoted field runs over a line break); an empty
    line is the empty record. *)

Module Csv.

Definition record : Type := list string.
Definition csv_file : Type := list record.

(** The [dict] of one row, restricted to its [str] keys: surplus
    values go under the key [None], which no column name equals.
    A short row maps the missing columns to [None] ([restval]). *)
Abbreviation row := (gmap string (option string)).

(** [dict(zip(fieldnames, row))], then [restval] for the other keys;
    a name that comes twice keeps its last value. *)
Fixpoint zip_row (fieldnames : list string) (r : record) (d : row) : row :=
  match fieldnames with
  | [] => d
  | f :: fs =>
      match r with
      | v :: vs => zip_row fs vs (<[f := Some v]> d)
      | [] => zip_row fs [] (<[f := None]> d)
      end
  end.

Definition is_blank (r : record) : bool :=
  match r with
  | [] => true
  | _ => false
  end.

(** [reader.fieldnames or []] *)
Definition fieldnames (f : csv_file) : list string :=
  match f with
  | [] => []
  | h :: _ => h
  end.

(** The records [DictReader] yields: those after the header, the
    blank ones skipped. *)
Definition data_records (f : csv_file) : list record :=
  filter (fun r => is_blank r = false) (tail f).

Definition rows (f : csv_file) : list row :=
  map (fun r => zip_row (fieldnames f) r ∅) (data_records f).

(** [row.get(key, default)] *)
Definition get (d : row) (key : string) (default : option string)
  : option string :=
  match d !! key with
  | Some v => v
  | None => default
  end.

(** The physical line of every record, the first line being line 1. *)
Definition numbered (f : csv_file) : list (Z * record) :=
  imap (fun i r => (Z.of_nat i + 1, r)) f.

(** The physical lines of the records [DictReader] yields, in order. *)
Definition data_lines (f : csv_file) : list Z :=
  map fst (filter (fun nr => is_blank nr.2 = false) (tail (numbered f))).

End Csv.

(** ** Paths, as [pathlib] holds them: the components below the root *)

Module Path.

Definition path : Type := list string.

Definition name (p : path) : string := default EmptyString (last p).
Definition parent (p : path) : path := removelast p.

(** [PurePath.relative_to] *)
Fixpoint relative_to (p root : path) {struct root} : exc path :=
  match root with
  | [] => Ret p
  | r :: root' =>
      match p with
      | c :: p' =>
          if String.eqb c r then relative_to p' root' else Raise ValueError
      | [] => Raise ValueError
      end
  end.

Fixpoint join (sep : string) (l : list string) : string :=
  match l with
  | [] => EmptyString
  | [x] => x
  | x :: l' => x +:+ sep +:+ join sep l'
  end.

(** [str] of a relative path *)
Definition str_rel (p : path) : string :=
  match p with
  | [] => "."
  | _ => join "/" p
  end.

(** [s.replace("\\", "/")] *)
Fixpoint replace_backslash (s : string) : string :=
  match s with
  | EmptyString => EmptyString
  | String c s' =>
      String (if Ascii.eqb c "\" then "/"%char else c) (replace_backslash s')
  end.

End Path.

(** ** [build_hyper_extracts.py] *)

Module BuildHyperExtracts.

(** The four values of [SqlType] the script builds. *)
Inductive SqlType : Type :=
  | SqlInt
  | SqlDouble
  | SqlTimestamp
  | SqlText.

#[global] Instance SqlType_eq_dec : EqDecision SqlType.
Proof. solve_decision. Defined.

Definition DATE_FIELDS : gset string :=
  {[ "timestamp"; "start_time"; "end_time"; "date" ]}.
Definition INT_FIELDS : gset string :=
  {[ "participant_id"; "trial"; "cluster_id"; "aoi_id" ]}.
Definition FLOAT_FIELDS : gset string :=
  {[ "x"; "y"; "duration"; "probability"; "score"; "value" ]}.

(** A column mapping of the schema configuration: a [dict] from column
    name to type name, in its stored order. *)
Abbreviation mapping := (list (string * string)).

(** [SCHEMA_MAP]: directory, then glob pattern (in stored order), then
    column mapping. *)
Abbreviation schema_map := (gmap string (list (string * mapping))).

(** The loop over [patterns.items()]. *)
Fixpoint first_match (file_name : string) (patterns : list (string * mapping))
  : option mapping :=
  match patterns with
  | [] => None
  | (pattern, m) :: rest =>
      if Fnmatch.fnmatch file_name pattern then Some m
      else first_match file_name rest
  end.

Definition lookup_fixed_types (SCHEMA_MAP : schema_map)
    (root csv_path : Path.path) : exc (option mapping) :=
  rel ← Path.relative_to (Path.parent csv_path) root;
  let rel_dir := Path.replace_backslash (Path.str_rel rel) in
  let file_name := Path.name csv_path in
  match SCHEMA_MAP !! rel_dir with
  | Some patterns => Ret (first_match file_name patterns)
  | None => Ret None
  end.

Definition str_to_sqltype (t : string) : SqlType :=
  let t := Py.lower t in
  if String.eqb t "int" then SqlInt
  else if String.eqb t "double" || String.eqb t "real" || String.eqb t "float"
  then SqlDouble
  else if String.eqb t "timestamp" || String.eqb t "datetime"
  then SqlTimestamp
  else SqlText.

Definition is_int (s : string) : bool := succeeds (Py.int_of_str s).
Definition is_float (s : string) : bool := succeeds (Py.float_of_str s).

Definition TS_FORMATS : list string :=
  [ "%Y-%m-%d %H:%M:%S"; "%Y-%m-%dT%H:%M:%S"; "%Y-%m-%d" ].

Definition is_ts (s : string) : bool :=
  existsb (fun fmt => succeeds (Strptime.strptime s fmt)) TS_FORMATS.

(** What the three local tests decide, as propositions. *)
Definition int_parses (v : string) : Prop := exists z, Py.int_of_str v = Ret z.
Definition float_parses (v : string) : Prop :=
  exists f, Py.float_of_str v = Ret f.
Definition ts_matches (v : string) : Prop :=
  exists fmt d, fmt ∈ TS_FORMATS /\ Strptime.strptime v fmt = Ret d.

(** [[v for v in sample_values if v]]: [None] and the empty string
    are both false. *)
Definition non_empty_of (sample_values : list (option string)) : list string :=
  omap (fun v => match v with
                 | Some s => if Py.truthy s then Some s else None
                 | None => None
                 end) sample_values.

Definition nonnil {A : Type} (l : list A) : bool :=
  match l with
  | [] => false
  | _ => true
  end.

Definition infer_type (field : string) (sample_values : list (option string))
  : SqlType :=
  let f := Py.lower field in
  if bool_decide (f ∈ INT_FIELDS) then SqlInt
  else if bool_decide (f ∈ FLOAT_FIELDS) then SqlDouble
  else if bool_decide (f ∈ DATE_FIELDS) then SqlTimestamp
  else
    let non_empty := non_empty_of sample_values in
    if nonnil non_empty && forallb is_int (take 10 non_empty) then SqlInt
    else if nonnil non_empty && forallb is_float (take 10 non_empty)
    then SqlDouble
    else if nonnil non_empty && existsb is_ts (take 10 non_empty)
    then SqlTimestamp
    else SqlText.

(** The sample waterfall as the specification words it, to compare
    with [infer_type]: an integer may carry a trailing [.0], and every
    test ranges over all the non-empty samples. *)
Definition is_integral (f : spec_float) : bool :=
  match f with
  | S754_zero _ => true
  | S754_finite _ m e => (0 <=? e) || (Zpos m mod 2 ^ (- e) =? 0)
  | _ => false
  end.

Definition spec_is_int (s : string) : bool :=
  is_int s
  || match Py.float_of_str s with
     | Ret f => is_integral f
     | Raise _ => false
     end.

Definition spec_infer_samples (sample_values : list (option string))
  : SqlType :=
  let non_empty := non_empty_of sample_values in
  if nonnil non_empty && forallb spec_is_int non_empty then SqlInt
  else if nonnil non_empty && forallb is_float non_empty then SqlDouble
  else if nonnil non_empty && existsb is_ts non_empty then SqlTimestamp
  else SqlText.

(** [tableauhyperapi.Name]: an SQL identifier, built from a [str]. *)
Inductive Name : Type :=
  | mkName (unescaped : string).

#[global] Instance Name_eq_dec : EqDecision Name.
Proof. solve_decision. Defined.

(** [Name(s)] refuses the empty string. *)
Definition Name_of_str (s : string) : exc Name :=
  match s with
  | EmptyString => Raise ValueError
  | _ => Ret (mkName s)
  end.

(** [TableName(schema, table)] *)
Record TableName : Type := mk_TableName {
  schema_name : Name;
  table : Name
}.

#[global] Instance TableName_eq_dec : EqDecision TableName.
Proof. solve_decision. Defined.

(** [TableDefinition]: the table's name and its columns in the order
    they were added. *)
Record table_def : Type := mk_table_def {
  table_name : TableName;
  columns : list (Name * SqlType)
}.

(** [table_def.add_column(h, col_type)]: the column's name is
    [Name(h)]. *)
Definition add_column (td : table_def) (h : string) (col_type : SqlType)
  : exc table_def :=
  n ← Name_of_str h;
  Ret (mk_table_def (table_name td) (columns td ++ [(n, col_type)])).

(** [samples[h].append(row.get(h, ""))] for every header of one row. *)
Definition sample_row (headers : list string) (r : Csv.row)
    (samples : gmap string (list (option string)))
  : gmap string (list (option string)) :=
  foldl (fun acc h =>
           <[h := default [] (acc !! h) ++ [Csv.get r h (Some EmptyString)]]> acc)
        samples headers.

Definition collect_samples (headers : list string) (rs : list Csv.row)
  : gmap string (list (option string)) :=
  foldl (fun acc r => sample_row headers r acc)
        (list_to_map ((fun h => (h, [])) <$> headers))
        (take 50 rs).

Fixpoint dict_get (m : mapping) (k : string) : option string :=
  match m with
  | [] => None
  | (k', v) :: m' => if String.eqb k k' then Some v else dict_get m' k
  end.

(** The second loop over [headers]: it stops at the first header that
    [add_column] refuses. *)
Fixpoint add_columns (headers : list string) (col_type : string -> SqlType)
    (td : table_def) : exc table_def :=
  match headers with
  | [] => Ret td
  | h :: rest =>
      td' ← add_column td h (col_type h);
      add_columns rest col_type td'
  end.

Definition build_table_def (f : Csv.csv_file) (table_name : TableName)
    (fixed_types : option mapping) : exc table_def :=
  let headers := Csv.fieldnames f in
  let samples := collect_samples headers (Csv.rows f) in
  add_columns headers
    (fun h =>
       match fixed_types ≫= (fun m => dict_get m h) with
       | Some t => str_to_sqltype t
       | None => infer_type h (default [] (samples !! h))
       end)
    (mk_table_def table_name []).

(** *** Row conversion and batched insertion *)

(** The Python values a converted cell can hold. *)
Inductive pyvalue : Type :=
  | PyNone
  | PyInt (z : Z)
  | PyFloat (f : spec_float)
  | PyDatetime (d : Strptime.datetime)
  | PyStr (s : string).

(** A value of the Python type that goes with a column type. *)
Definition has_type (t : SqlType) (x : pyvalue) : Prop :=
  match t, x with
  | SqlInt, PyInt _ => True
  | SqlDouble, PyFloat _ => True
  | SqlTimestamp, PyDatetime _ => True
  | SqlText, PyStr _ => True
  | _, _ => False
  end.

(** The objects the script asks a row for: a [str] (the header [h] in
    [build_table_def]) or a [Name] ([col.name] in [insert_csv]). *)
Inductive pykey : Type :=
  | KStr (s : string)
  | KName (n : Name).

(** [row.get(key, default)] on a row of the reader.  The keys of the
    row are [str] (and [None] for surplus values).  A [Name] hashes as
    its text, but its [__eq__] answers for another [Name] only, so it
    equals none of the keys and the default comes back. *)
Definition row_get (r : Csv.row) (key : pykey) (default : option string)
  : option string :=
  match key with
  | KStr s => Csv.get r s default
  | KName _ => default
  end.

(** The loop over the three formats: the first that parses wins. *)
Fixpoint parse_ts (v : string) (fmts : list string)
  : exc (option Strptime.datetime) :=
  match fmts with
  | [] => Ret None
  | fmt :: rest =>
      try_except (d ← Strptime.strptime v fmt; Ret (Some d))
                 (parse_ts v rest)
  end.

(** The body of the loop over [table_def.columns], for one column, once
    [v] has been looked up. *)
Definition convert_value (t : SqlType) (v : option string) : exc pyvalue :=
  match v with
  | None | Some EmptyString => Ret PyNone
  | Some v =>
      match t with
      | SqlInt =>
          try_except (f ← Py.float_of_str v; z ← Py.int_of_float f; Ret (PyInt z))
                     (Ret PyNone)
      | SqlDouble =>
          try_except (f ← Py.float_of_str v; Ret (PyFloat f)) (Ret PyNone)
      | SqlTimestamp =>
          parsed ← parse_ts v TS_FORMATS;
          Ret (match parsed with
               | Some d => PyDatetime d
               | None => PyNone
               end)
      | SqlText => Ret (PyStr v)
      end
  end.

(** The loop over [table_def.columns] for one row:
    [v = row.get(col.name, None)], then the conversion. *)
Fixpoint convert_row (cols : list (Name * SqlType)) (r : Csv.row)
  : exc (list pyvalue) :=
  match cols with
  | [] => Ret []
  | (name, t) :: rest =>
      v ← convert_value t (row_get r (KName name) None);
      vs ← convert_row rest r;
      Ret (v :: vs)
  end.

(** The destination: the tables created and the batches inserted, each
    in order. *)
Record connection : Type := mk_connection {
  catalog : list table_def;
  inserted : list (list (list pyvalue))
}.

(** One [Inserter]: [add_rows] and [execute]. *)
Definition flush (c : connection) (batch : list (list pyvalue)) : connection :=
  mk_connection (catalog c) (inserted c ++ [batch]).

Definition BATCH_SIZE : nat := 5000.

(** One turn of the loop over the reader: the state is the buffer
    [rows] and the connection. *)
Definition insert_step (cols : list (Name * SqlType))
    (st : list (list pyvalue) * connection) (r : Csv.row)
  : exc (list (list pyvalue) * connection) :=
  values ← convert_row cols r;
  let rows := st.1 ++ [values] in
  if (BATCH_SIZE <=? length rows)%nat then Ret ([], flush st.2 rows)
  else Ret (rows, st.2).

Fixpoint insert_loop (cols : list (Name * SqlType)) (rs : list Csv.row)
    (st : list (list pyvalue) * connection)
  : exc (list (list pyvalue) * connection) :=
  match rs with
  | [] => Ret st
  | r :: rs' => st' ← insert_step cols st r; insert_loop cols rs' st'
  end.

Section Catalog.

(** [connection.catalog.create_table]: the Hyper catalogue lies outside
    the repository, so it is taken as any operation on the connection
    that returns the connection it leaves or raises. *)
Variable create_table : connection -> table_def -> exc connection.

Definition insert_csv (c : connection) (table_def : table_def)
    (f : Csv.csv_file) : exc connection :=
  c ← create_table c table_def;
  '(rows, c) ← insert_loop (columns table_def) (Csv.rows f) ([], c);
  if nonnil rows then Ret (flush c rows) else Ret c.

End Catalog.

(** A catalogue of the kind Hyper keeps: it takes a table whose schema
    exists, whose name is new and whose column names differ from each
    other, and raises otherwise. *)
Definition hyper_create_table (schemas : list Name) (c : connection)
    (td : table_def) : exc connection :=
  if bool_decide (schema_name (table_name td) ∈ schemas)
     && bool_decide (table_name td ∉ table_name <$> catalog c)
     && bool_decide (NoDup (fst <$> columns td))
  then Ret (mk_connection (catalog c ++ [td]) (inserted c))
  else Raise HyperException.

End BuildHyperExtracts.

(** ** [validate_csv_schemas.py] *)

Module ValidateCsvSchemas.

Import BuildHyperExtracts.

Definition _is_int (s : string) : bool :=
  succeeds (f ← Py.float_of_str s; Py.int_of_float f).

Definition _is_float (s : string) : bool := succeeds (Py.float_of_str s).

Definition _is_ts (s : string) : bool :=
  existsb (fun fmt => succeeds (Strptime.strptime s fmt))
          [ "%Y-%m-%d %H:%M:%S"; "%Y-%m-%dT%H:%M:%S"; "%Y-%m-%d" ].

(** [lambda s: s == "" or s is None or p(s)] *)
Definition or_blank (p : string -> bool) (s : option string) : bool :=
  match s with
  | None => true
  | Some v => String.eqb v EmptyString || p v
  end.

Definition TYPE_CHECKERS : gmap string (option string -> bool) :=
  {[ "int" := or_blank _is_int;
     "double" := or_blank _is_float;
     "timestamp" := or_blank _is_ts;
     "text" := fun _ => true ]}.

(** [TYPE_CHECKERS.get(t, TYPE_CHECKERS["text"])] *)
Definition checker_for (t : string) : option string -> bool :=
  default (fun _ => true) (TYPE_CHECKERS !! t).

Definition lookup_schema (root csv_path : Path.path) (schema : schema_map)
  : exc (option mapping) :=
  rel ← Path.relative_to (Path.parent csv_path) root;
  let rel_dir := Path.replace_backslash (Path.str_rel rel) in
  let file_name := Path.name csv_path in
  match schema !! rel_dir with
  | Some patterns => Ret (first_match file_name patterns)
  | None => Ret None
  end.

(** A [ValidationError]: line number, column, message. *)
Abbreviation error := (Z * string * string)%type.

Definition missing_errors (headers : list string) (schema : mapping)
  : list error :=
  map (fun c => (0, c, "missing column"))
      (filter (fun c => c ∉ headers) (map fst schema)).

(** The inner loop over [schema.items()] for the row numbered [i]. *)
Definition row_errors (schema : mapping) (i : Z) (r : Csv.row) : list error :=
  omap (fun ct : string * string =>
          let '(col, t) := ct in
          if checker_for t (Csv.get r col (Some EmptyString)) then None
          else Some (i, col, "expected " +:+ t))
       schema.

(** [enumerate(reader, start=2)] *)
Definition enumerate_from {A : Type} (start : Z) (l : list A) : list (Z * A) :=
  imap (fun k a => (start + Z.of_nat k, a)) l.

Definition validate_csv (f : Csv.csv_file) (schema : mapping) : list error :=
  missing_errors (Csv.fieldnames f) schema
  ++ concat (map (fun ir => row_errors schema ir.1 ir.2)
                 (enumerate_from 2 (Csv.rows f))).

(** What [main] prints, one value per line. *)
Inductive printed : Type :=
  | ViolationsIn (rel : Path.path)
  | ErrorLine (e : error)
  | MoreLine (n : Z)
  | AllConform.

(** [if not schema: continue]: [None] and the empty mapping are both
    false. *)
Definition truthy_schema (schema : option mapping) : option mapping :=
  match schema with
  | Some ((_ :: _) as m) => Some m
  | _ => None
  end.

(** The lines printed for a file with errors. *)
Definition print_violations (rel : Path.path) (errs : list error)
  : list printed :=
  ViolationsIn rel
  :: map ErrorLine (take 50 errs)
  ++ (if 50 <? Z.of_nat (length errs)
      then [MoreLine (Z.of_nat (length errs) - 50)] else []).

(** One turn of the loop over the CSV files found; the state is what
    has been printed and [total]. *)
Definition main_step (root : Path.path) (schema_map : schema_map)
    (st : list printed * Z) (cf : Path.path * Csv.csv_file)
  : exc (list printed * Z) :=
  schema ← lookup_schema root cf.1 schema_map;
  match truthy_schema schema with
  | None => Ret st
  | Some schema =>
      let errs := validate_csv cf.2 schema in
      if nonnil errs then
        rel ← Path.relative_to cf.1 root;
        Ret (st.1 ++ print_violations rel errs, st.2 + 1)
      else Ret st
  end.

Fixpoint main_loop (root : Path.path) (schema_map : schema_map)
    (csvs : list (Path.path * Csv.csv_file)) (st : list printed * Z)
  : exc (list printed * Z) :=
  match csvs with
  | [] => Ret st
  | cf :: rest =>
      st' ← main_step root schema_map st cf;
      main_loop root schema_map rest st'
  end.

(** [main], given the root, the schema map loaded and the CSV files
    found with their contents. *)
Definition main (root : Path.path) (schema_map : schema_map)
    (csvs : list (Path.path * Csv.csv_file)) : exc (list printed) :=
  st ← main_loop root schema_map csvs ([], 0);
  Ret (if st.2 =? 0 then st.1 ++ [AllConform] else st.1).

(** Every file with a resolved schema validates without errors. *)
Definition clean_files (root : Path.path) (schema_map : schema_map)
    (csvs : list (Path.path * Csv.csv_file)) : Prop :=
  forall p f m, (p, f) ∈ csvs ->
    lookup_schema root p schema_map = Ret (Some m) ->
    validate_csv f m = [].

(** [e] is an error of one of the files under its resolved schema. *)
Definition real_error (root : Path.path) (schema_map : schema_map)
    (csvs : list (Path.path * Csv.csv_file)) (e : error) : Prop :=
  exists p f m, (p, f) ∈ csvs /\
    lookup_schema root p schema_map = Ret (Some m) /\
    e ∈ validate_csv f m.

End ValidateCsvSchemas.

(** ** [package_tdsx.py]

    The file system maps the path of every regular file to its
    contents; directories are implicit, so creating the output
    directory and opening the output for writing always succeed. *)

Module PackageTdsx.

(** What a file holds: plain bytes, or a zip archive as the list of
    its entries in the order written. *)
#[local] Unset Elimination Schemes.
Inductive data : Type :=
  | Bytes (s : string)
  | Archive (entries : list (string * data)).
#[local] Set Elimination Schemes.

Abbreviation filesystem := (gmap Path.path data).

(** An open [ZipFile(out, 'w')]: its path and the entries so far. *)
Record zipfile : Type := mk_zipfile {
  zpath : Path.path;
  zentries : list (string * data)
}.

(** Opening for writing creates or truncates the file. *)
Definition zip_open (out : Path.path) (fs : filesystem)
  : zipfile * filesystem :=
  (mk_zipfile out [], <[out := Bytes EmptyString]> fs).

(** [z.write(filename, arcname)] *)
Definition zip_write (z : zipfile) (fs : filesystem)
    (filename : Path.path) (arcname : string) : exc zipfile :=
  match fs !! filename with
  | Some d => Ret (mk_zipfile (zpath z) (zentries z ++ [(arcname, d)]))
  | None => Raise FileNotFoundError
  end.

(** Leaving the [with] block writes the archive out. *)
Definition zip_close (z : zipfile) (fs : filesystem) : filesystem :=
  <[zpath z := Archive (zentries z)]> fs.

(** The result and the file system left behind. *)
Definition package_tdsx (tds hyper out : Path.path) (fs : filesystem)
  : exc unit * filesystem :=
  let '(z, fs) := zip_open out fs in
  match zip_write z fs tds (Path.name tds) with
  | Raise e => (Raise e, zip_close z fs)
  | Ret z1 =>
      match zip_write z1 fs hyper ("Data/Extracts/" +:+ Path.name hyper) with
      | Raise e => (Raise e, zip_close z1 fs)
      | Ret z2 => (Ret tt, zip_close z2 fs)
      end
  end.

Definition exists_ (p : Path.path) (fs : filesystem) : bool :=
  bool_decide (is_Some (fs !! p)).

(** [main], after the arguments are parsed and resolved. *)
Definition main (tds hyper out : Path.path) (fs : filesystem)
  : exc unit * filesystem :=
  if negb (exists_ tds fs) then (Raise FileNotFoundError, fs)
  else if negb (exists_ hyper fs) then (Raise FileNotFoundError, fs)
  else package_tdsx tds hyper out fs.

End PackageTdsx.

(* ===================================================================== *)
(** * Part II: properties                                                 *)
(* ===================================================================== *)

(** ** Exceptions *)

Lemma succeeds_true {A : Type} (m : exc A) :
  succeeds m = true <-> exists a, m = Ret a.
Proof.
  destruct m as [a|e]; simpl; split; eauto.
  - discriminate.
  - intros [a' H]; discriminate.
Qed.

Lemma succeeds_false {A : Type} (m : exc A) :
  succeeds m = false <-> exists e, m = Raise e.
Proof.
  destruct m as [a|e]; simpl; split; eauto.
  - discriminate.
  - intros [e' H]; discriminate.
Qed.

(** ** Type inference *)

Section Inference.
Import BuildHyperExtracts.

Lemma is_int_parses v : is_int v = true <-> int_parses v.
Proof. apply succeeds_true. Qed.

Lemma is_float_parses v : is_float v = true <-> float_parses v.
Proof. apply succeeds_true. Qed.

Lemma is_ts_matches v : is_ts v = true <-> ts_matches v.
Proof.
  unfold is_ts, ts_matches. rewrite existsb_exists. split.
  - intros (fmt & Hin & Hs). apply succeeds_true in Hs as [d Hd].
    exists fmt, d. split; [by apply list_elem_of_In | done].
  - intros (fmt & d & Hin & Hd). exists fmt.
    split; [by apply list_elem_of_In | by rewrite Hd].
Qed.

Lemma forallb_Forall_iff {A : Type} (p : A -> bool) (P : A -> Prop) l :
  (forall x, p x = true <-> P x) ->
  forallb p l = true <-> Forall P l.
Proof.
  intros Hp. rewrite forallb_forall, Forall_forall.
  split; intros H x Hx; apply Hp, H; by apply list_elem_of_In.
Qed.

Lemma existsb_Exists_iff {A : Type} (p : A -> bool) (P : A -> Prop) l :
  (forall x, p x = true <-> P x) ->
  existsb p l = true <-> Exists P l.
Proof.
  intros Hp. rewrite existsb_exists, Exists_exists. split.
  - intros (x & Hx & Hpx). exists x. split; [by apply list_elem_of_In | by apply Hp].
  - intros (x & Hx & Hpx). exists x. split; [by apply list_elem_of_In | by apply Hp].
Qed.

Lemma nonnil_take {A : Type} (l : list A) :
  nonnil l = true <-> take 10 l <> [].
Proof. destruct l; simpl; split; congruence. Qed.

Lemma infer_type_no_hint field samples :
  Py.lower field ∉ INT_FIELDS ->
  Py.lower field ∉ FLOAT_FIELDS ->
  Py.lower field ∉ DATE_FIELDS ->
  infer_type field samples =
    let non_empty := non_empty_of samples in
    if nonnil non_empty && forallb is_int (take 10 non_empty) then SqlInt
    else if nonnil non_empty && forallb is_float (take 10 non_empty)
    then SqlDouble
    else if nonnil non_empty && existsb is_ts (take 10 non_empty)
    then SqlTimestamp
    else SqlText.
Proof.
  intros H1 H2 H3. unfold infer_type.
  rewrite !bool_decide_eq_false_2 by done. reflexivity.
Qed.

Lemma elem_of_hint_sets (f : string) :
  (f ∈ INT_FIELDS ->
     bool_decide (f ∈ INT_FIELDS) = true) /\
  (f ∈ FLOAT_FIELDS ->
     bool_decide (f ∈ INT_FIELDS) = false /\
     bool_decide (f ∈ FLOAT_FIELDS) = true) /\
  (f ∈ DATE_FIELDS ->
     bool_decide (f ∈ INT_FIELDS) = false /\
     bool_decide (f ∈ FLOAT_FIELDS) = false /\
     bool_decide (f ∈ DATE_FIELDS) = true).
Proof.
  split; [|split].
  - intros H. by apply bool_decide_eq_true_2.
  - intros H. unfold FLOAT_FIELDS in H.
    rewrite !elem_of_union, !elem_of_singleton in H.
    destruct_or!; subst f; by vm_compute.
  - intros H. unfold DATE_FIELDS in H.
    rewrite !elem_of_union, !elem_of_singleton in H.
    destruct_or!; subst f; by vm_compute.
Qed.

(** C2. Hints dominate samples: when the lower-cased column name is in
    the known-integer, known-float or known-timestamp set, [infer_type]
    returns Integer, Double or Timestamp respectively, whatever the
    sample values are. *)
Theorem hints_dominate_samples (field : string)
    (sample_values : list (option string)) :
  (Py.lower field ∈ INT_FIELDS -> infer_type field sample_values = SqlInt) /\
  (Py.lower field ∈ FLOAT_FIELDS ->
     infer_type field sample_values = SqlDouble) /\
  (Py.lower field ∈ DATE_FIELDS ->
     infer_type field sample_values = SqlTimestamp).
Proof.
  destruct (elem_of_hint_sets (Py.lower field)) as (Hi & Hf & Hd).
  unfold infer_type. split; [|split]; intros H.
  - by rewrite (Hi H).
  - destruct (Hf H) as [-> ->]. done.
  - destruct (Hd H) as (-> & -> & ->). done.
Qed.

Lemma hints_dominate_samples_witness :
  infer_type "Trial" [Some "abc"] = SqlInt /\
  infer_type "SCORE" [Some "abc"; None] = SqlDouble /\
  infer_type "Start_Time" [Some "12"] = SqlTimestamp.
Proof.
  split; [|split].
  - apply (hints_dominate_samples "Trial" [Some "abc"]).
    apply (bool_decide_unpack _). vm_compute. exact I.
  - apply (hints_dominate_samples "SCORE" [Some "abc"; None]).
    apply (bool_decide_unpack _). vm_compute. exact I.
  - apply (hints_dominate_samples "Start_Time" [Some "12"]).
    apply (bool_decide_unpack _). vm_compute. exact I.
Defined.

(** The waterfall of the specification and [infer_type] part ways on
    a column of [5.0] (no hint: Double, not Integer) and on ten
    integers followed by a word (Integer, not Text). *)
Lemma infer_type_differs_from_spec_waterfall :
  (Py.lower "n" ∉ INT_FIELDS) /\ (Py.lower "n" ∉ FLOAT_FIELDS) /\
  (Py.lower "n" ∉ DATE_FIELDS) /\
  infer_type "n" [Some "5.0"] = SqlDouble /\
  spec_infer_samples [Some "5.0"] = SqlInt /\
  infer_type "n" (replicate 10 (Some "1") ++ [Some "abc"]) = SqlInt /\
  spec_infer_samples (replicate 10 (Some "1") ++ [Some "abc"]) = SqlText.
Proof.
  split; [apply (bool_decide_eq_false_1 _); vm_compute; reflexivity|].
  split; [apply (bool_decide_eq_false_1 _); vm_compute; reflexivity|].
  split; [apply (bool_decide_eq_false_1 _); vm_compute; reflexivity|].
  repeat split; vm_compute; reflexivity.
Qed.

(** C1, amended. With no header-name hint, [infer_type] looks at the
    first ten non-empty samples only: Integer if there is one and each
    of them parses with [int] (no trailing [.0] is accepted: a column
    of [5.0] is Double); else Double if there is one and each parses
    with [float]; else Timestamp if one of them matches one of the
    three formats; else Text. *)
Theorem infer_type_sample_waterfall (field : string)
    (sample_values : list (option string)) :
  Py.lower field ∉ INT_FIELDS ->
  Py.lower field ∉ FLOAT_FIELDS ->
  Py.lower field ∉ DATE_FIELDS ->
  let window := take 10 (non_empty_of sample_values) in
  let all_int := window <> [] /\ Forall int_parses window in
  let all_float := window <> [] /\ Forall float_parses window in
  let some_ts := Exists ts_matches window in
  (all_int -> infer_type field sample_values = SqlInt) /\
  (~ all_int -> all_float -> infer_type field sample_values = SqlDouble) /\
  (~ all_int -> ~ all_float -> some_ts ->
     infer_type field sample_values = SqlTimestamp) /\
  (~ all_int -> ~ all_float -> ~ some_ts ->
     infer_type field sample_values = SqlText) /\
  infer_type "n" [Some "5.0"] = SqlDouble.
Proof.
  intros H1 H2 H3 window all_int all_float some_ts.
  rewrite (infer_type_no_hint field sample_values H1 H2 H3). cbv zeta.
  fold window.
  assert (Hint : nonnil (non_empty_of sample_values)
                 && forallb is_int window = true <-> all_int).
  { rewrite andb_true_iff, nonnil_take.
    by rewrite (forallb_Forall_iff _ _ _ is_int_parses). }
  assert (Hfloat : nonnil (non_empty_of sample_values)
                   && forallb is_float window = true <-> all_float).
  { rewrite andb_true_iff, nonnil_take.
    by rewrite (forallb_Forall_iff _ _ _ is_float_parses). }
  assert (Hts : nonnil (non_empty_of sample_values)
                && existsb is_ts window = true <-> some_ts).
  { rewrite andb_true_iff, nonnil_take.
    rewrite (existsb_Exists_iff _ _ _ is_ts_matches). unfold some_ts.
    split; [by intros [_ ?]|]. intros H. split; [|done].
    intros Hnil. fold window in Hnil. rewrite Hnil in H. by inversion H. }
  assert (H5 : infer_type "n" [Some "5.0"] = SqlDouble)
    by (vm_compute; reflexivity).
  revert Hint Hfloat Hts.
  generalize (nonnil (non_empty_of sample_values) && forallb is_int window).
  generalize (nonnil (non_empty_of sample_values) && forallb is_float window).
  generalize (nonnil (non_empty_of sample_values) && existsb is_ts window).
  generalize all_int all_float some_ts. clear.
  intros P Q R bt bf bi Hint Hfloat Hts.
  destruct bi, bf, bt; intuition congruence.
Qed.

Lemma infer_type_sample_waterfall_witness :
  infer_type "reading" [Some ""; Some "7"; None; Some " 12 "] = SqlInt.
Proof.
  refine (proj1 (infer_type_sample_waterfall "reading"
                   [Some ""; Some "7"; None; Some " 12 "] _ _ _) _).
  - apply (bool_decide_eq_false_1 _). vm_compute. reflexivity.
  - apply (bool_decide_eq_false_1 _). vm_compute. reflexivity.
  - apply (bool_decide_eq_false_1 _). vm_compute. reflexivity.
  - split; [vm_compute; discriminate|].
    repeat constructor; eexists; vm_compute; reflexivity.
Defined.

End Inference.

(** ** Row conversion and batched insertion *)

Section Insertion.
Import BuildHyperExtracts.

Lemma parse_ts_total v fmts : exists r, parse_ts v fmts = Ret r.
Proof.
  induction fmts as [|fmt rest IH]; simpl; [eauto|].
  destruct (Strptime.strptime v fmt); simpl; eauto.
Qed.

Lemma convert_value_total t v :
  exists x, convert_value t v = Ret x /\ (x = PyNone \/ has_type t x).
Proof.
  destruct v as [[|c s]|]; [by eexists; split; [reflexivity|left] | |
                            by eexists; split; [reflexivity|left]].
  unfold convert_value. destruct t.
  - destruct (Py.float_of_str _) as [f|]; cbn; eauto.
    destruct (Py.int_of_float f); cbn; eauto.
  - destruct (Py.float_of_str _) as [f|]; cbn; eauto.
  - destruct (parse_ts_total (String c s) TS_FORMATS) as [[d|] ->];
      cbn; eauto.
  - cbn; eauto.
Qed.

(** The row is asked for each cell under the column's [Name], which
    none of its keys equals: every column converts the absent value. *)
Lemma convert_row_null (cols : list (Name * SqlType)) (r : Csv.row) :
  convert_row cols r = Ret (replicate (length cols) PyNone).
Proof.
  induction cols as [|[name t] rest IH]; simpl; [done|]. by rewrite IH.
Qed.

Lemma BATCH_SIZE_pos : (0 < BATCH_SIZE)%nat.
Proof. unfold BATCH_SIZE. apply Nat.ltb_lt. vm_compute. reflexivity. Qed.

Lemma BATCH_SIZE_Z : Z.of_nat BATCH_SIZE = 5000.
Proof. vm_compute. reflexivity. Qed.

(** What the loop over the reader leaves behind: whole batches in the
    connection, fewer than a batch in the buffer, and between them one
    converted row per row read, in order. *)
Lemma insert_loop_spec cols rs : forall buf c,
  (length buf < BATCH_SIZE)%nat ->
  exists buf' c' new,
    insert_loop cols rs (buf, c) = Ret (buf', c') /\
    catalog c' = catalog c /\
    inserted c' = inserted c ++ new /\
    Forall (fun b => length b = BATCH_SIZE) new /\
    (length buf' < BATCH_SIZE)%nat /\
    concat new ++ buf'
      = buf ++ replicate (length rs) (replicate (length cols) PyNone).
Proof.
  induction rs as [|r rs IH]; intros buf c Hbuf.
  - exists buf, c, []. simpl. rewrite !app_nil_r.
    repeat split; auto.
  - cbn [insert_loop]. unfold insert_step. rewrite convert_row_null.
    cbn [mbind exc_bind fst snd].
    set (vs := replicate (length cols) PyNone).
    destruct (Nat.leb_spec BATCH_SIZE (length (buf ++ [vs]))) as [Hfull|Hroom].
    + cbn [mbind exc_bind].
      destruct (IH [] (flush c (buf ++ [vs])) BATCH_SIZE_pos)
        as (buf' & c' & new & Hl & Hc & Hi & Hn & Hb & Hcat).
      exists buf', c', ((buf ++ [vs]) :: new).
      rewrite Hl. simpl in Hc, Hi. rewrite Hc, Hi, <- app_assoc. simpl.
      repeat split; auto.
      * constructor; [|done]. rewrite length_app in *. simpl in *. lia.
      * rewrite <- app_assoc. simpl in Hcat. rewrite Hcat.
        by rewrite <- app_assoc.
    + cbn [mbind exc_bind].
      destruct (IH (buf ++ [vs]) c Hroom)
        as (buf' & c' & new & Hl & Hc & Hi & Hn & Hb & Hcat).
      exists buf', c', new.
      rewrite Hl. repeat split; auto.
      rewrite Hcat. by rewrite <- app_assoc.
Qed.

Lemma length_concat_full (B : nat) (new : list (list (list pyvalue))) :
  Forall (fun b => length b = B) new ->
  length (concat new) = (B * length new)%nat /\
  map length new = replicate (length new) B.
Proof.
  induction 1 as [|b new Hb _ [IH1 IH2]]; simpl; [split; [lia|done]|].
  rewrite length_app, IH1, IH2, Hb. split; [lia|done].
Qed.

(** [insert_csv] raises what [create_table] raises, and nothing else;
    once the table is created it appends to the connection one row per
    row read, cut into batches of [BATCH_SIZE] and a shorter last one
    if rows are left over. *)
Lemma insert_csv_spec create_table c td f :
  match create_table c td with
  | Raise e => insert_csv create_table c td f = Raise e
  | Ret c1 =>
      exists c' new rest,
        insert_csv create_table c td f = Ret c' /\
        catalog c' = catalog c1 /\
        inserted c' = inserted c1 ++ new ++ (if nonnil rest then [rest] else []) /\
        Forall (fun b => length b = BATCH_SIZE) new /\
        (length rest < BATCH_SIZE)%nat /\
        concat new ++ rest
          = replicate (length (Csv.rows f))
                      (replicate (length (columns td)) PyNone)
  end.
Proof.
  unfold insert_csv. destruct (create_table c td) as [c1|e]; [|done].
  cbn [mbind exc_bind].
  destruct (insert_loop_spec (columns td) (Csv.rows f) [] c1 BATCH_SIZE_pos)
    as (buf' & c' & new & Hl & Hc & Hi & Hn & Hb & Hcat).
  rewrite Hl. cbn [mbind exc_bind]. simpl in Hcat.
  destruct buf' as [|b0 bs]; cbn [nonnil].
  - exists c', new, []. cbn [nonnil]. rewrite app_nil_r.
    repeat split; auto.
  - exists (flush c' (b0 :: bs)), new, (b0 :: bs). cbn [nonnil].
    simpl. rewrite Hc, Hi, <- app_assoc. repeat split; auto.
Qed.

(** C3. Row conversion does not deliver what is said of it.  The loop
    of [insert_csv] asks the row for each cell under [col.name], a
    [Name], while the keys of the row are [str]; the lookup finds
    nothing and the cell is appended as null before any conversion
    branch is reached.  For the file with the header [trial] and the
    rows [5.0] and [n/a], whose column the header hint types Integer:
    the cells read are [5.0] and [n/a]; the Integer branch, given
    [5.0], yields 5; yet both converted rows hold null, and these are
    the rows inserted once the table is created. *)
Theorem row_conversion_drops_every_cell :
  let f : Csv.csv_file := [["trial"]; ["5.0"]; ["n/a"]] in
  let tn := mk_TableName (mkName "Extract") (mkName "trials") in
  let td := mk_table_def tn [(mkName "trial", SqlInt)] in
  build_table_def f tn None = Ret td /\
  (fun r => Csv.get r "trial" None) <$> Csv.rows f
    = [Some "5.0"; Some "n/a"] /\
  convert_value SqlInt (Some "5.0") = Ret (PyInt 5) /\
  convert_row (columns td) <$> Csv.rows f = [Ret [PyNone]; Ret [PyNone]] /\
  forall create_table c,
    insert_csv create_table c td f
      = (c1 ← create_table c td; Ret (flush c1 [[PyNone]; [PyNone]])).
Proof.
  intros f tn td.
  split; [vm_compute; reflexivity|].
  split; [vm_compute; reflexivity|].
  split; [vm_compute; reflexivity|].
  split; [vm_compute; reflexivity|].
  intros create_table c. unfold insert_csv.
  destruct (create_table c td) as [c1|e]; [|done].
  cbn [mbind exc_bind]. destruct c1 as [cat ins]. vm_compute. reflexivity.
Qed.

(** C4. Batch flush boundary: [insert_csv] raises only what creating
    the table raises, before any row is read.  Once the table is
    created, for a source of [n] rows it flushes a batch each time the
    buffer reaches 5000 rows and, once the source is exhausted, flushes
    what is left only if it is not empty.  The sizes of the flushes are
    therefore [n / 5000] times 5000, then [n mod 5000] unless that is
    zero: 5000, 5000, 2000 for 12000 rows, and one flush for 5000
    rows. *)
Theorem batch_flush_boundary
    (create_table : connection -> table_def -> exc connection)
    (c : connection) (td : table_def) (f : Csv.csv_file) :
  match create_table c td with
  | Raise e => insert_csv create_table c td f = Raise e
  | Ret c1 =>
      exists c', insert_csv create_table c td f = Ret c' /\
        let n := Z.of_nat (length (Csv.rows f)) in
        let sizes := map (fun b => Z.of_nat (length b))
                         (drop (length (inserted c1)) (inserted c')) in
        sizes = replicate (Z.to_nat (n / 5000)) 5000
                ++ (if n mod 5000 =? 0 then [] else [n mod 5000]) /\
        (n = 12000 -> sizes = [5000; 5000; 2000]) /\
        (n = 5000 -> sizes = [5000])
  end.
Proof.
  pose proof (insert_csv_spec create_table c td f) as Hspec.
  destruct (create_table c td) as [c1|e]; [|done].
  destruct Hspec as (c' & new & rest & H & _ & Hi & Hn & Hr & Hcat).
  exists c'. split; [done|]. intros n sizes.
  assert (Hsizes : sizes = replicate (Z.to_nat (n / 5000)) 5000
            ++ (if n mod 5000 =? 0 then [] else [n mod 5000])).
  { destruct (length_concat_full _ _ Hn) as [Hlen Hmap].
    assert (Hsum : n = 5000 * Z.of_nat (length new) + Z.of_nat (length rest)).
    { apply (f_equal length) in Hcat.
      rewrite length_app, Hlen, length_replicate in Hcat.
      unfold n. rewrite <- Hcat, <- BATCH_SIZE_Z. lia. }
    assert (Hlt : 0 <= Z.of_nat (length rest) < 5000).
    { rewrite <- BATCH_SIZE_Z. lia. }
    assert (Hq : n / 5000 = Z.of_nat (length new)).
    { symmetry. eapply Z.div_unique; [left; exact Hlt | exact Hsum]. }
    assert (Hm : n mod 5000 = Z.of_nat (length rest)).
    { symmetry. eapply Z.mod_unique; [left; exact Hlt | exact Hsum]. }
    unfold sizes. rewrite Hi, drop_app_length, map_app, Hq, Hm, Nat2Z.id.
    f_equal.
    - rewrite <- BATCH_SIZE_Z. clear -Hn.
      induction Hn as [|b new Hb _ IH]; simpl; [done|]. by rewrite Hb, IH.
    - destruct rest; simpl; [done|].
      destruct (Z.eqb_spec (Z.pos (Pos.of_succ_nat (length rest))) 0); [lia|].
      done. }
  split; [exact Hsizes|]. split; intros Hn'; rewrite Hsizes, Hn'; reflexivity.
Qed.

Lemma batch_flush_boundary_witness :
  let td := mk_table_def (mk_TableName (mkName "Extract") (mkName "trials"))
                         [(mkName "trial", SqlInt)] in
  exists c',
    insert_csv (hyper_create_table [mkName "Extract"]) (mk_connection [] []) td
               (["trial"] :: replicate (Z.to_nat 12000) ["1"]) = Ret c' /\
    map (fun b => Z.of_nat (length b)) (inserted c') = [5000; 5000; 2000].
Proof.
  intros td.
  pose proof (batch_flush_boundary (hyper_create_table [mkName "Extract"])
                (mk_connection [] []) td
                (["trial"] :: replicate (Z.to_nat 12000) ["1"])) as H.
  assert (Hc : hyper_create_table [mkName "Extract"] (mk_connection [] []) td
               = Ret (mk_connection [td] [])) by (vm_compute; reflexivity).
  rewrite Hc in H. destruct H as (c' & H & _ & H12 & _).
  exists c'. split; [exact H|]. apply H12. vm_compute. reflexivity.
Defined.

End Insertion.

(** ** Schema-configuration type names *)

Section TypeNames.
Import BuildHyperExtracts ValidateCsvSchemas.

(** C5. The two consumers of the schema configuration do not read type
    names alike.  The builder maps [float], [real] and [datetime], and
    any spelling in upper case, to Double, Double, Timestamp and the
    type of the lower-case name; the validator knows only the four
    keys of its table and checks every other name as text, so it
    accepts a word in a column the builder types as a number. *)
Theorem type_names_not_uniform :
  str_to_sqltype "float" = SqlDouble /\
  checker_for "float" (Some "abc") = true /\
  str_to_sqltype "real" = SqlDouble /\
  checker_for "real" (Some "abc") = true /\
  str_to_sqltype "datetime" = SqlTimestamp /\
  checker_for "datetime" (Some "abc") = true /\
  str_to_sqltype "INT" = SqlInt /\
  checker_for "INT" (Some "abc") = true /\
  checker_for "double" (Some "abc") = false /\
  checker_for "timestamp" (Some "abc") = false /\
  checker_for "int" (Some "abc") = false.
Proof. repeat split; vm_compute; reflexivity. Qed.

End TypeNames.

(** ** Schema resolution *)

Section Resolver.
Import BuildHyperExtracts ValidateCsvSchemas.

Lemma relative_to_app (root rest : Path.path) :
  Path.relative_to (root ++ rest) root = Ret rest.
Proof.
  induction root as [|r root IH]; simpl; [done|].
  rewrite String.eqb_refl. exact IH.
Qed.

Lemma removelast_snoc {A : Type} (l : list A) (x : A) :
  removelast (l ++ [x]) = l.
Proof.
  induction l as [|a l IH]; simpl; [done|].
  rewrite IH. by destruct l.
Qed.

Lemma parent_name_snoc (p : Path.path) (name : string) :
  Path.parent (p ++ [name]) = p /\ Path.name (p ++ [name]) = name.
Proof.
  unfold Path.parent, Path.name. rewrite removelast_snoc, last_snoc. done.
Qed.



End Resolver.

(** ** The validator *)

Section Validator.
Import BuildHyperExtracts ValidateCsvSchemas.

Lemma checker_for_known :
  checker_for "int" = or_blank _is_int /\
  checker_for "double" = or_blank _is_float /\
  checker_for "timestamp" = or_blank _is_ts /\
  checker_for "text" = (fun _ => true).
Proof. repeat split; reflexivity. Qed.

Lemma int_of_float_finite (f : spec_float) :
  succeeds (Py.int_of_float f) = Py.is_finite f.
Proof. by destruct f. Qed.

Lemma _is_int_finite (s : string) :
  _is_int s = true <->
  exists f, Py.float_of_str s = Ret f /\ Py.is_finite f = true.
Proof.
  unfold _is_int. destruct (Py.float_of_str s) as [f|e]; cbn.
  - rewrite int_of_float_finite. split; [eauto|].
    by intros (f' & [= <-] & H).
  - split; [done|]. by intros (f' & [=] & _).
Qed.

(** C7. The line number of a cell-level error is the ordinal of the
    row among the rows the reader yields, not the physical line: in a
    file whose second line is blank, the bad cell on physical line 3
    is reported on line 2. *)
Theorem validator_line_is_not_physical :
  validate_csv [["a"]; []; ["x"]] [("a", "int")]
    = [(2, "a", "expected int")] /\
  Csv.data_lines [["a"]; []; ["x"]] = [3].
Proof. split; vm_compute; reflexivity. Qed.

(** The validator's [int] predicate turns down texts that [float]
    parses: infinities, not-a-number, and decimals too large for a
    double. *)
Lemma int_checker_rejects_non_finite :
  _is_float "inf" = true /\
  checker_for "int" (Some "inf") = false /\
  _is_float "nan" = true /\
  checker_for "int" (Some "nan") = false /\
  _is_float "1e999" = true /\
  checker_for "int" (Some "1e999") = false /\
  validate_csv [["a"]; ["inf"]] [("a", "int")] = [(2, "a", "expected int")].
Proof. repeat split; vm_compute; reflexivity. Qed.

(** C10, amended. For a non-empty cell [s], the validator's [int]
    predicate holds exactly when [s] parses as a float and the value
    is finite: [5.5] is accepted, and [s] is rejected when it fails to
    parse or parses to an infinity or to not-a-number. *)
Theorem int_checker_accepts_finite_floats (s : string) :
  s <> EmptyString ->
  (checker_for "int" (Some s) = true <->
     exists f, Py.float_of_str s = Ret f /\ Py.is_finite f = true) /\
  checker_for "int" (Some "5.5") = true.
Proof.
  intros Hs. split; [|vm_compute; reflexivity].
  destruct checker_for_known as (-> & _). unfold or_blank.
  destruct s as [|c s]; [done|]. cbn [String.eqb orb].
  apply _is_int_finite.
Qed.

Lemma int_checker_accepts_finite_floats_witness :
  "-12.75e1" <> EmptyString /\
  checker_for "int" (Some "-12.75e1") = true.
Proof.
  split; [discriminate|].
  apply (proj1 (int_checker_accepts_finite_floats "-12.75e1" ltac:(discriminate))).
  eexists. split; vm_compute; reflexivity.
Defined.

End Validator.

(** ** The packager *)

Section Packager.
Import PackageTdsx.

Lemma exists_true (p : Path.path) (fs : filesystem) (d : data) :
  fs !! p = Some d -> exists_ p fs = true.
Proof. intros H. apply bool_decide_eq_true_2. by rewrite H. Qed.

Lemma exists_false (p : Path.path) (fs : filesystem) :
  fs !! p = None -> exists_ p fs = false.
Proof.
  intros H. apply bool_decide_eq_false_2. rewrite H. by intros [? ?].
Qed.

(** Reading a file once the output has been opened: the output itself
    reads as empty, every other file as before. *)
Lemma lookup_after_open (fs : filesystem) (out p : Path.path) (d : data) :
  fs !! p = Some d ->
  exists d', (zip_open out fs).2 !! p = Some d' /\ (p <> out -> d' = d).
Proof.
  intros H. unfold zip_open. cbn [snd]. rewrite lookup_insert.
  destruct (decide (out = p)) as [->|Hne].
  - eexists. split; [done|]. congruence.
  - exists d. by split.
Qed.

Lemma package_tdsx_ok (fs : filesystem) (tds hyper out : Path.path)
    (td hd : data) :
  fs !! tds = Some td -> fs !! hyper = Some hd ->
  exists e1 e2,
    package_tdsx tds hyper out fs =
      (Ret tt,
       <[out := Archive [(Path.name tds, e1);
                         ("Data/Extracts/" +:+ Path.name hyper, e2)]]> fs) /\
    (tds <> out -> e1 = td) /\ (hyper <> out -> e2 = hd).
Proof.
  intros Ht Hh.
  destruct (lookup_after_open fs out tds td Ht) as (e1 & H1 & He1).
  destruct (lookup_after_open fs out hyper hd Hh) as (e2 & H2 & He2).
  exists e1, e2. split; [|by split].
  unfold package_tdsx, zip_write. unfold zip_open in *. cbn [snd] in *.
  rewrite H1. cbn [zentries zpath]. rewrite H2. cbn [zentries zpath].
  unfold zip_close. cbn [zentries zpath app]. by rewrite insert_insert_eq.
Qed.

(** C8. Archive layout: packaging an existing descriptor file [a] and
    an existing extract file [b] succeeds and leaves at the output
    path an archive of exactly two entries, the descriptor under its
    own file name at the root and then the extract under
    [Data/Extracts/] followed by its file name; no other file
    changes. *)
Theorem archive_layout (fs : filesystem) (d1 d2 out : Path.path)
    (a b : string) (td hd : data) :
  fs !! (d1 ++ [a]) = Some td ->
  fs !! (d2 ++ [b]) = Some hd ->
  exists e1 e2 fs',
    main (d1 ++ [a]) (d2 ++ [b]) out fs = (Ret tt, fs') /\
    package_tdsx (d1 ++ [a]) (d2 ++ [b]) out fs = (Ret tt, fs') /\
    fs' !! out = Some (Archive [(a, e1); ("Data/Extracts/" +:+ b, e2)]) /\
    (d1 ++ [a] <> out -> e1 = td) /\
    (d2 ++ [b] <> out -> e2 = hd) /\
    (forall p, p <> out -> fs' !! p = fs !! p).
Proof.
  intros Ht Hh.
  destruct (package_tdsx_ok fs _ _ out td hd Ht Hh) as (e1 & e2 & Hp & H1 & H2).
  unfold Path.name in Hp. rewrite !last_snoc in Hp. cbn [default] in Hp.
  exists e1, e2. eexists. unfold main.
  rewrite (exists_true _ _ _ Ht), (exists_true _ _ _ Hh). cbn [negb].
  split; [exact Hp|]. split; [exact Hp|].
  split; [by rewrite lookup_insert_eq|].
  split; [done|]. split; [done|].
  intros p Hne. by rewrite lookup_insert_ne.
Qed.

Lemma archive_layout_witness :
  exists e1 e2 fs',
    package_tdsx ["templates"; "a.tds"] ["outputs"; "b.hyper"]
                 ["packaged"; "out.tdsx"]
                 {[ ["templates"; "a.tds"] := Bytes "<datasource/>";
                    ["outputs"; "b.hyper"] := Bytes "HYPR" ]}
      = (Ret tt, fs') /\
    fs' !! ["packaged"; "out.tdsx"]
      = Some (Archive [("a.tds", e1); ("Data/Extracts/b.hyper", e2)]).
Proof.
  destruct (archive_layout
              {[ ["templates"; "a.tds"] := Bytes "<datasource/>";
                 ["outputs"; "b.hyper"] := Bytes "HYPR" ]}
              ["templates"] ["outputs"] ["packaged"; "out.tdsx"]
              "a.tds" "b.hyper" (Bytes "<datasource/>") (Bytes "HYPR"))
    as (e1 & e2 & fs' & _ & Hp & Hl & _).
  - vm_compute. reflexivity.
  - vm_compute. reflexivity.
  - exists e1, e2, fs'. split; [exact Hp | exact Hl].
Defined.

(** C9. Packager precondition: when the descriptor or the extract does
    not exist, [main] fails with [FileNotFoundError] before anything
    is opened, and the file system, the output path included, is left
    exactly as it was. *)
Theorem packager_precondition (fs : filesystem)
    (tds hyper out : Path.path) :
  fs !! tds = None \/ fs !! hyper = None ->
  main tds hyper out fs = (Raise FileNotFoundError, fs).
Proof.
  intros [H|H]; unfold main.
  - by rewrite (exists_false _ _ H).
  - rewrite (exists_false _ _ H). by destruct (exists_ tds fs).
Qed.

Lemma packager_precondition_witness :
  main ["templates"; "a.tds"] ["outputs"; "b.hyper"] ["packaged"; "out.tdsx"]
       {[ ["templates"; "a.tds"] := Bytes "<datasource/>" ]}
    = (Raise FileNotFoundError,
       {[ ["templates"; "a.tds"] := Bytes "<datasource/>" ]}).
Proof.
  apply packager_precondition. right. vm_compute. reflexivity.
Defined.

End Packager.

(** ** More on the validator *)

Section ValidatorErrors.
Import BuildHyperExtracts ValidateCsvSchemas.

(** The table has four keys; any other type name gets the text check. *)
Lemma checker_for_unknown (t : string) :
  t <> "int" -> t <> "double" -> t <> "timestamp" ->
  forall v, checker_for t v = true.
Proof.
  intros H1 H2 H3 v. unfold checker_for, TYPE_CHECKERS.
  rewrite !lookup_insert_ne by done.
  destruct (decide (t = "text")) as [->|H4].
  - by rewrite lookup_singleton_eq.
  - by rewrite lookup_singleton_ne.
Qed.

(** Every checker lets an empty cell and a missing cell through. *)
Lemma checker_for_blank (t : string) :
  checker_for t (Some EmptyString) = true /\ checker_for t None = true.
Proof.
  destruct (decide (t = "int")) as [->|H1]; [by vm_compute|].
  destruct (decide (t = "double")) as [->|H2]; [by vm_compute|].
  destruct (decide (t = "timestamp")) as [->|H3]; [by vm_compute|].
  split; by apply checker_for_unknown.
Qed.

Lemma zip_row_lookup_None (fs : list string) : forall r (d : Csv.row) col,
  col ∉ fs -> Csv.zip_row fs r d !! col = d !! col.
Proof.
  induction fs as [|f fs IH]; intros r d col Hcol; simpl; [done|].
  apply not_elem_of_cons in Hcol as [Hne Hcol].
  destruct r as [|v vs]; rewrite IH by done; by rewrite lookup_insert_ne.
Qed.

Lemma elem_of_row_errors schema i r e :
  e ∈ row_errors schema i r <->
  exists col t, (col, t) ∈ schema /\
    checker_for t (Csv.get r col (Some EmptyString)) = false /\
    e = (i, col, "expected " +:+ t).
Proof.
  unfold row_errors. rewrite list_elem_of_omap. split.
  - intros ([col t] & Hin & H). exists col, t.
    destruct (checker_for t _) eqn:E; [done|]. by injection H as <-.
  - intros (col & t & Hin & Hc & ->). exists (col, t). by rewrite Hc.
Qed.

Lemma elem_of_concat_map {A B : Type} (g : A -> list B) (l : list A) (y : B) :
  y ∈ concat (map g l) <-> exists x, x ∈ l /\ y ∈ g x.
Proof.
  rewrite list_elem_of_In, in_concat. split.
  - intros (ys & Hys & Hy). apply in_map_iff in Hys as (x & <- & Hx).
    exists x. by rewrite !list_elem_of_In.
  - intros (x & Hx & Hy). exists (g x). rewrite <- !list_elem_of_In.
    split; [|done]. apply list_elem_of_In, in_map, list_elem_of_In, Hx.
Qed.

Lemma elem_of_missing_errors (headers : list string) (schema : mapping)
    (e : Z * string * string) :
  e ∈ missing_errors headers schema <->
  exists col t, (col, t) ∈ schema /\ (col ∉ headers) /\
                e = (0, col, "missing column").
Proof.
  unfold missing_errors.
  change (map ?g ?l) with (g <$> l). rewrite list_elem_of_fmap. split.
  - intros (col & -> & Hin). apply list_elem_of_filter in Hin as [Hno Hin].
    apply list_elem_of_fmap in Hin as ([col' t] & -> & Hin).
    by exists col', t.
  - intros (col & t & Hin & Hno & ->). exists col. split; [done|].
    apply list_elem_of_filter. split; [done|].
    apply list_elem_of_fmap. by exists (col, t).
Qed.

Lemma elem_of_cell_errors (rs : list Csv.row) (schema : mapping)
    (e : Z * string * string) :
  e ∈ concat (map (fun ir => row_errors schema ir.1 ir.2)
                  (enumerate_from 2 rs)) <->
  exists (k : nat) r col t,
    rs !! k = Some r /\ (col, t) ∈ schema /\
    checker_for t (Csv.get r col (Some EmptyString)) = false /\
    e = (2 + Z.of_nat k, col, "expected " +:+ t).
Proof.
  rewrite elem_of_concat_map. unfold enumerate_from. split.
  - intros ([i r] & Hir & He).
    apply elem_of_lookup_imap in Hir as (k & r' & [= -> ->] & Hk).
    apply elem_of_row_errors in He as (col & t & Hin & Hc & ->).
    by exists k, r', col, t.
  - intros (k & r & col & t & Hk & Hin & Hc & ->).
    exists (2 + Z.of_nat k, r). split.
    + apply elem_of_lookup_imap. by exists k, r.
    + apply elem_of_row_errors. by exists col, t.
Qed.

Lemma validate_csv_cases (f : Csv.csv_file) (schema : mapping)
    (e : Z * string * string) :
  e ∈ validate_csv f schema ->
  (exists col t, (col, t) ∈ schema /\ (col ∉ Csv.fieldnames f) /\
      e = (0, col, "missing column"))
  \/ (exists (k : nat) r col t,
        Csv.rows f !! k = Some r /\ (col, t) ∈ schema /\
        checker_for t (Csv.get r col (Some EmptyString)) = false /\
        e = (2 + Z.of_nat k, col, "expected " +:+ t)).
Proof.
  unfold validate_csv. rewrite elem_of_app.
  intros [H|H]; [left; by apply elem_of_missing_errors
                |right; by apply elem_of_cell_errors].
Qed.

(** X1. The errors of [validate_csv] are exactly these: a line-0
    [missing column] error for each schema column that is not in the
    header, and, for the row of ordinal [k] among the rows read and each
    schema column whose cell fails the check chosen for its type, an
    error on line [2 + k] with the message [expected] and the type. *)
Theorem validate_csv_errors (f : Csv.csv_file) (schema : mapping)
    (e : Z * string * string) :
  e ∈ validate_csv f schema <->
  (exists col t, (col, t) ∈ schema /\ (col ∉ Csv.fieldnames f) /\
      e = (0, col, "missing column"))
  \/ (exists (k : nat) r col t,
        Csv.rows f !! k = Some r /\ (col, t) ∈ schema /\
        checker_for t (Csv.get r col (Some EmptyString)) = false /\
        e = (2 + Z.of_nat k, col, "expected " +:+ t)).
Proof.
  unfold validate_csv. rewrite elem_of_app.
  pose proof (elem_of_missing_errors (Csv.fieldnames f) schema e) as Hm.
  pose proof (elem_of_cell_errors (Csv.rows f) schema e) as Hc.
  split.
  - intros [H|H]; [left; by apply Hm | right; by apply Hc].
  - intros [H|H]; [left; by apply Hm | right; by apply Hc].
Qed.

(** X2. Line numbers of the validator: an error is either a line-0
    [missing column] error or sits on a line from 2 up to one more than
    the number of rows read. *)
Theorem validate_csv_line_numbers (f : Csv.csv_file) (schema : mapping)
    (line : Z) (col msg : string) :
  (line, col, msg) ∈ validate_csv f schema ->
  (line = 0 /\ msg = "missing column")
  \/ (2 <= line < 2 + Z.of_nat (length (Csv.rows f))).
Proof.
  intros H. apply validate_csv_cases in H
    as [(c & t & _ & _ & [= -> -> ->])|(k & r & c & t & Hk & _ & _ & [= -> -> ->])].
  - by left.
  - right. apply lookup_lt_Some in Hk. lia.
Qed.

Lemma validate_csv_line_numbers_witness :
  (2, "a", "expected int") ∈ validate_csv [["a"]; ["x"]] [("a", "int")] /\
  ((2 = 0 /\ "expected int" = "missing column")
   \/ (2 <= 2 < 2 + Z.of_nat (length (Csv.rows [["a"]; ["x"]])))).
Proof.
  assert (H : (2, "a", "expected int")
              ∈ validate_csv [["a"]; ["x"]] [("a", "int")]).
  { vm_compute. apply list_elem_of_here. }
  split; [exact H|]. exact (validate_csv_line_numbers _ _ _ _ _ H).
Defined.

Lemma rows_lookup (f : Csv.csv_file) (k : nat) (r : Csv.row) :
  Csv.rows f !! k = Some r ->
  exists rec, rec ∈ Csv.data_records f /\
              r = Csv.zip_row (Csv.fieldnames f) rec ∅.
Proof.
  unfold Csv.rows. change (map ?g ?l) with (g <$> l).
  rewrite list_lookup_fmap. intros H.
  destruct (Csv.data_records f !! k) as [rec|] eqn:E; [|done].
  injection H as <-. exists rec. split; [|done].
  by eapply list_elem_of_lookup_2.
Qed.

(** X3. A schema column that is not in the header gets its line-0
    error and nothing else: no row yields a cell-level error for it,
    whatever type the schema declares. *)
Theorem validate_csv_absent_column (f : Csv.csv_file) (schema : mapping)
    (line : Z) (col msg : string) :
  col ∉ Csv.fieldnames f ->
  (line, col, msg) ∈ validate_csv f schema ->
  line = 0 /\ msg = "missing column".
Proof.
  intros Hcol H. apply validate_csv_cases in H
    as [(c & t & _ & _ & [= -> -> ->])|(k & r & c & t & Hk & _ & Hc & [= -> -> ->])];
    [done|].
  exfalso. apply rows_lookup in Hk as (rec & _ & ->).
  unfold Csv.get in Hc. rewrite zip_row_lookup_None, lookup_empty in Hc by done.
  destruct (checker_for_blank t) as [Hb _]. congruence.
Qed.

Lemma validate_csv_absent_column_witness :
  ("b" ∉ Csv.fieldnames [["a"]; ["x"]; ["y"]]) /\
  (0, "b", "missing column")
    ∈ validate_csv [["a"]; ["x"]; ["y"]] [("b", "int")] /\
  (0 = 0 /\ "missing column" = "missing column").
Proof.
  assert (Hno : "b" ∉ Csv.fieldnames [["a"]; ["x"]; ["y"]]).
  { apply (bool_decide_unpack _). vm_compute. exact I. }
  assert (Hin : (0, "b", "missing column")
                ∈ validate_csv [["a"]; ["x"]; ["y"]] [("b", "int")]).
  { vm_compute. apply list_elem_of_here. }
  split; [exact Hno|]. split; [exact Hin|].
  exact (validate_csv_absent_column _ _ _ _ _ Hno Hin).
Defined.

(** X4. Cell-level errors arise only for the three checked type names:
    an error on a line other than 0 names a schema column declared
    [int], [double] or [timestamp], spelled exactly so, and its message
    is [expected] followed by that name. *)
Theorem validate_csv_checked_types (f : Csv.csv_file) (schema : mapping)
    (line : Z) (col msg : string) :
  (line, col, msg) ∈ validate_csv f schema ->
  line <> 0 ->
  exists t, (col, t) ∈ schema /\
            (t = "int" \/ t = "double" \/ t = "timestamp") /\
            msg = "expected " +:+ t.
Proof.
  intros H Hline. apply validate_csv_cases in H
    as [(c & t & _ & _ & [= -> -> ->])|(k & r & c & t & Hk & Hin & Hc & [= -> -> ->])];
    [done|].
  exists t. split; [done|]. split; [|done].
  destruct (decide (t = "int")) as [|H1]; [by left|].
  destruct (decide (t = "double")) as [|H2]; [by right; left|].
  destruct (decide (t = "timestamp")) as [|H3]; [by right; right|].
  rewrite (checker_for_unknown t H1 H2 H3) in Hc. discriminate.
Qed.

Lemma validate_csv_checked_types_witness :
  exists t, ("a", t) ∈ [("a", "double")] /\
            (t = "int" \/ t = "double" \/ t = "timestamp") /\
            "expected double" = "expected " +:+ t.
Proof.
  apply (validate_csv_checked_types [["a"]; ["1.5"]; ["n/a"]] [("a", "double")]
           3 "a" "expected double").
  - vm_compute. apply list_elem_of_here.
  - discriminate.
Defined.

Lemma data_lines_offset (t : list Csv.record) : forall n : nat,
  Forall (fun r => r <> []) t ->
  map fst (filter (fun nr : Z * Csv.record => Csv.is_blank nr.2 = false)
                  (imap (fun i r => (Z.of_nat (n + i) + 1, r)) t))
    = (fun k => Z.of_nat (n + k) + 1) <$> seq 0 (length t)
  /\ length (filter (fun r => Csv.is_blank r = false) t) = length t.
Proof.
  induction t as [|r t IH]; intros n Hall; [done|].
  inversion_clear Hall as [|? ? Hr Ht].
  rewrite imap_cons, !filter_cons. cbn [snd].
  destruct r as [|v vs]; [done|]. cbn [Csv.is_blank].
  rewrite !decide_True by done. cbn [map fst length seq fmap list_fmap].
  destruct (IH (S n) Ht) as [IH1 IH2]. split; [|by rewrite IH2].
  f_equal.
  rewrite <- fmap_S_seq, <- list_fmap_compose.
  rewrite (imap_ext _ (fun i r => (Z.of_nat (S n + i) + 1, r)) t)
    by (intros i x _; simpl; do 2 f_equal; lia).
  rewrite IH1. apply list_fmap_ext. intros _ k _. simpl. f_equal. lia.
Qed.

(** Without blank lines after the header, the rows read lie on the
    physical lines 2, 3, and so on. *)
Lemma data_lines_no_blank (f : Csv.csv_file) :
  Forall (fun r => r <> []) (tail f) ->
  Csv.data_lines f
    = (fun k => 2 + Z.of_nat k) <$> seq 0 (length (Csv.rows f)).
Proof.
  intros Hall. unfold Csv.data_lines, Csv.numbered, Csv.rows, Csv.data_records.
  rewrite length_map.
  destruct f as [|h t]; [done|]. rewrite imap_cons. cbn [tail] in *.
  destruct (data_lines_offset t 1 Hall) as [H1 H2].
  rewrite H2.
  rewrite (imap_ext _ (fun i r => (Z.of_nat (1 + i) + 1, r)) t)
    by (intros i x _; simpl; do 2 f_equal; lia).
  rewrite H1. apply list_fmap_ext. intros _ k _. lia.
Qed.

(** X5. In a file without blank lines after the header, a cell-level
    error of [validate_csv] carries the physical line of the row whose
    cell failed: the error on line [line] for column [col] comes from a
    row read whose physical line is [line] and whose cell for [col]
    fails the check of the declared type. *)
Theorem row_numbers_are_physical_lines (f : Csv.csv_file) (schema : mapping)
    (line : Z) (col msg : string) :
  Forall (fun r => r <> []) (tail f) ->
  (line, col, msg) ∈ validate_csv f schema ->
  line <> 0 ->
  exists (k : nat) r t,
    Csv.rows f !! k = Some r /\
    Csv.data_lines f !! k = Some line /\
    (col, t) ∈ schema /\
    checker_for t (Csv.get r col (Some EmptyString)) = false /\
    msg = "expected " +:+ t.
Proof.
  intros Hall H Hline. apply validate_csv_cases in H
    as [(c & t & _ & _ & [= -> -> ->])|(k & r & c & t & Hk & Hin & Hc & [= -> -> ->])];
    [done|].
  exists k, r, t. split; [done|]. split; [|done].
  rewrite (data_lines_no_blank f Hall), list_lookup_fmap.
  rewrite lookup_seq_lt by (by eapply lookup_lt_Some). done.
Qed.

Lemma row_numbers_are_physical_lines_witness :
  let f : Csv.csv_file := [["a"; "b"]; ["1"; "2"]; ["3"]; ["x"; "5"]] in
  exists (k : nat) r t,
    Csv.rows f !! k = Some r /\
    Csv.data_lines f !! k = Some 4 /\
    (("a", t) ∈ [("a", "int")]) /\
    checker_for t (Csv.get r "a" (Some EmptyString)) = false /\
    "expected int" = "expected " +:+ t.
Proof.
  intros f.
  apply (row_numbers_are_physical_lines f [("a", "int")] 4 "a" "expected int").
  - repeat constructor; discriminate.
  - vm_compute. apply list_elem_of_here.
  - discriminate.
Defined.

End ValidatorErrors.

(** ** More on the extract builder *)

Section BuilderMore.
Import BuildHyperExtracts ValidateCsvSchemas.

(** X6. [insert_csv] raises what creating the table raises, before
    any row is read, and nothing else.  Once the table is created it
    returns, leaves the catalogue as [create_table] left it, and what
    it inserts is, for each row read, one row of as many nulls as the
    table has columns: the cells are asked for under the columns'
    [Name]s, so no cell text reaches the destination. *)
Theorem insert_csv_inserts_nulls
    (create_table : connection -> table_def -> exc connection)
    (c : connection) (td : table_def) (f : Csv.csv_file) :
  match create_table c td with
  | Raise e => insert_csv create_table c td f = Raise e
  | Ret c1 =>
      exists c',
        insert_csv create_table c td f = Ret c' /\
        catalog c' = catalog c1 /\
        concat (inserted c')
          = concat (inserted c1)
            ++ replicate (length (Csv.rows f))
                         (replicate (length (columns td)) PyNone)
  end.
Proof.
  pose proof (insert_csv_spec create_table c td f) as Hspec.
  destruct (create_table c td) as [c1|e]; [|done].
  destruct Hspec as (c' & new & rest & H & Hc & Hi & _ & _ & Hcat).
  exists c'. split; [done|]. split; [done|].
  rewrite Hi, !concat_app, <- Hcat. f_equal. f_equal.
  destruct rest; simpl; [done|]. by rewrite app_nil_r.
Qed.

Lemma sample_row_lookup (r : Csv.row) (headers : list string) :
  forall (samples : gmap string (list (option string))) (h : string),
  NoDup headers ->
  sample_row headers r samples !! h =
    if decide (h ∈ headers)
    then Some (default [] (samples !! h) ++ [Csv.get r h (Some EmptyString)])
    else samples !! h.
Proof.
  unfold sample_row.
  induction headers as [|h0 hs IH]; intros samples h Hnd; cbn [foldl].
  - by rewrite decide_False by apply not_elem_of_nil.
  - apply NoDup_cons in Hnd as [Hh0 Hnd]. rewrite IH by done.
    destruct (decide (h ∈ hs)) as [Hin|Hout].
    + rewrite decide_True by (by right).
      rewrite lookup_insert_ne; [done|]. by intros ->.
    + destruct (decide (h = h0)) as [->|Hne].
      * rewrite decide_True by (by left). by rewrite lookup_insert_eq.
      * rewrite decide_False by (by intros [?|?]%elem_of_cons).
        by rewrite lookup_insert_ne.
Qed.

Lemma collect_rows_lookup (headers : list string) (h : string) :
  NoDup headers -> h ∈ headers ->
  forall (rs : list Csv.row) (acc : gmap string (list (option string))),
  default [] (foldl (fun acc r => sample_row headers r acc) acc rs !! h)
    = default [] (acc !! h)
      ++ ((fun r => Csv.get r h (Some EmptyString)) <$> rs).
Proof.
  intros Hnd Hin. induction rs as [|r rs IH]; intros acc; simpl.
  - by rewrite app_nil_r.
  - rewrite IH, sample_row_lookup, decide_True by done. simpl.
    by rewrite <- app_assoc.
Qed.

Lemma initial_samples_lookup (headers : list string) (h : string) :
  default [] ((list_to_map ((fun h => (h, [])) <$> headers)
                 : gmap string (list (option string))) !! h) = [].
Proof.
  induction headers as [|h0 hs IH]; simpl; [by rewrite lookup_empty|].
  destruct (decide (h0 = h)) as [->|Hne].
  - by rewrite lookup_insert_eq.
  - by rewrite lookup_insert_ne.
Qed.

(** [add_column] refuses the empty name only, so the loop over the
    headers adds them all or stops at an empty one. *)
Lemma add_columns_spec (col_type : string -> SqlType) (headers : list string) :
  forall td : table_def,
  add_columns headers col_type td =
    if decide (EmptyString ∈ headers) then Raise ValueError
    else Ret (mk_table_def (table_name td)
                (columns td ++ ((fun h => (mkName h, col_type h)) <$> headers))).
Proof.
  induction headers as [|h hs IH]; intros td; cbn [add_columns].
  - rewrite decide_False by apply not_elem_of_nil.
    destruct td. cbn. by rewrite app_nil_r.
  - unfold add_column. destruct h as [|ch h]; cbn [Name_of_str mbind exc_bind].
    + by rewrite decide_True by apply list_elem_of_here.
    + rewrite IH. cbn [table_name columns].
      destruct (decide (EmptyString ∈ hs)) as [Hin|Hout].
      * by rewrite decide_True by (by right).
      * rewrite decide_False by (by intros [?|?]%elem_of_cons).
        by rewrite <- app_assoc.
Qed.

(** X8. [build_table_def] raises [ValueError] when a header name is
    empty, since a column cannot be given the empty name.  When none is
    empty and none comes twice, the table definition has one column per
    header name, in header order; a column named in a non-empty fixed
    mapping gets the type of its configured name, and any other column
    the type inferred from its name and from its cells in the first 50
    rows read, in file order (a cell missing from a short row counts as
    absent). *)
Theorem build_table_def_columns (f : Csv.csv_file) (tn : TableName)
    (fixed_types : option mapping) :
  (EmptyString ∈ Csv.fieldnames f ->
   build_table_def f tn fixed_types = Raise ValueError) /\
  ((EmptyString ∉ Csv.fieldnames f) ->
   NoDup (Csv.fieldnames f) ->
   build_table_def f tn fixed_types =
     Ret (mk_table_def tn
            ((fun h =>
                (mkName h,
                 match fixed_types ≫= (fun m => dict_get m h) with
                 | Some t => str_to_sqltype t
                 | None =>
                     infer_type h ((fun r => Csv.get r h (Some EmptyString))
                                     <$> take 50 (Csv.rows f))
                 end)) <$> Csv.fieldnames f))).
Proof.
  unfold build_table_def. rewrite add_columns_spec. cbn [table_name columns app].
  split.
  - intros Hin. by rewrite decide_True.
  - intros Hout Hnd. rewrite decide_False by done. do 2 f_equal.
    apply list_fmap_ext. intros _ h Hh%list_elem_of_lookup_2.
    f_equal. destruct (fixed_types ≫= _); [done|]. f_equal.
    unfold collect_samples.
    by rewrite collect_rows_lookup, initial_samples_lookup.
Qed.

Lemma build_table_def_columns_witness :
  let tn := mk_TableName (mkName "Extract") (mkName "scores") in
  build_table_def [[""; "x"]; ["1"; "2.5"]] tn None = Raise ValueError /\
  build_table_def [["id"; "score"; "seen_at"];
                   ["1"; "0.5"; "2024-01-01"];
                   ["x"; "bad"; "2024-13-40"]] tn None
    = Ret (mk_table_def tn [(mkName "id", SqlText);
                            (mkName "score", SqlDouble);
                            (mkName "seen_at", SqlTimestamp)]).
Proof.
  intros tn. split.
  - apply (proj1 (build_table_def_columns [[""; "x"]; ["1"; "2.5"]] tn None)).
    apply list_elem_of_here.
  - rewrite (proj2 (build_table_def_columns
                      [["id"; "score"; "seen_at"];
                       ["1"; "0.5"; "2024-01-01"];
                       ["x"; "bad"; "2024-13-40"]] tn None)).
    + vm_compute. reflexivity.
    + apply (bool_decide_eq_false_1 _). vm_compute. reflexivity.
    + apply (bool_decide_unpack _). vm_compute. exact I.
Defined.

(** X9. A column without a name hint whose sampled cells are all empty
    or absent is typed Text: with nothing to look at, none of the three
    sample tests applies. *)
Theorem infer_type_blank_column (field : string)
    (sample_values : list (option string)) :
  Py.lower field ∉ INT_FIELDS ->
  Py.lower field ∉ FLOAT_FIELDS ->
  Py.lower field ∉ DATE_FIELDS ->
  Forall (fun v => v = None \/ v = Some EmptyString) sample_values ->
  infer_type field sample_values = SqlText.
Proof.
  intros H1 H2 H3 Hall. rewrite infer_type_no_hint by done. cbv zeta.
  assert (non_empty_of sample_values = []) as ->; [|done].
  induction Hall as [|v vs [->| ->] _ IH]; simpl; done.
Qed.

Lemma infer_type_blank_column_witness :
  infer_type "notes" [Some ""; None; Some ""] = SqlText.
Proof.
  apply infer_type_blank_column.
  - apply (bool_decide_eq_false_1 _). vm_compute. reflexivity.
  - apply (bool_decide_eq_false_1 _). vm_compute. reflexivity.
  - apply (bool_decide_eq_false_1 _). vm_compute. reflexivity.
  - constructor; [by right|]. constructor; [by left|].
    constructor; [by right|]. constructor.
Defined.

End BuilderMore.

(** ** More on schema resolution *)

Section ResolverMore.
Import BuildHyperExtracts ValidateCsvSchemas.

Lemma relative_to_Ret (p root rest : Path.path) :
  Path.relative_to p root = Ret rest <-> p = root ++ rest.
Proof.
  split; [|intros ->; apply relative_to_app].
  revert p. induction root as [|r root IH]; intros p; simpl.
  - by intros [= ->].
  - destruct p as [|c p]; [done|].
    destruct (String.eqb_spec c r) as [->|]; [|done].
    intros H. by rewrite (IH _ H).
Qed.

(** X10. The lookups fail only when the file does not lie beneath the
    root: if the root is not a prefix of the directory of the CSV path,
    both [lookup_fixed_types] and [lookup_schema] raise the [ValueError]
    of [relative_to], whatever the schema map holds. *)
Theorem lookup_outside_root (SCHEMA_MAP : schema_map)
    (root csv_path : Path.path) :
  (forall rest, Path.parent csv_path <> root ++ rest) ->
  lookup_fixed_types SCHEMA_MAP root csv_path = Raise ValueError /\
  lookup_schema root csv_path SCHEMA_MAP = Raise ValueError.
Proof.
  intros Hout. unfold lookup_fixed_types, lookup_schema.
  assert (Path.relative_to (Path.parent csv_path) root = Raise ValueError)
    as ->; [|done].
  destruct (Path.relative_to _ root) as [rest|e] eqn:E.
  - apply relative_to_Ret in E. by destruct (Hout rest).
  - clear Hout. revert E. generalize (Path.parent csv_path).
    induction root as [|r root IH]; intros p; simpl; [done|].
    destruct p as [|c p]; [by intros [= <-]|].
    destruct (String.eqb c r); [apply IH|by intros [= <-]].
Qed.

Lemma lookup_outside_root_witness :
  lookup_fixed_types ∅ ["home"; "project"] ["tmp"; "results"; "a.csv"]
    = Raise ValueError.
Proof.
  apply (lookup_outside_root ∅ ["home"; "project"] ["tmp"; "results"; "a.csv"]).
  intros rest. discriminate.
Defined.

Lemma fnmatch_star (name : string) : Fnmatch.fnmatch name "*" = true.
Proof.
  unfold Fnmatch.fnmatch, Fnmatch.fnmatchcase, Fnmatch.normcase.
  replace (Fnmatch.translate "*") with [Fnmatch.STAR] by reflexivity.
  induction (Fnmatch.chars name) as [|c n IH]; [done|]. exact IH.
Qed.

(** X11. A [*] pattern catches every file name, so the entries stored
    after it in a directory's table are never used: the answer is the
    mapping of the first earlier pattern that matches, or else the
    mapping of the [*] entry. *)
Theorem star_pattern_shadows_later (file_name : string)
    (pre post : list (string * mapping)) (m : mapping) :
  first_match file_name (pre ++ ("*", m) :: post)
    = Some (default m (first_match file_name pre)).
Proof.
  induction pre as [|[p m'] pre IH]; simpl.
  - by rewrite fnmatch_star.
  - by destruct (Fnmatch.fnmatch file_name p).
Qed.

Lemma chars_inj (a b : string) : Fnmatch.chars a = Fnmatch.chars b -> a = b.
Proof.
  revert b. induction a as [|c a IH]; intros [|d b]; simpl; try done.
  intros [= -> H]. by rewrite (IH _ H).
Qed.

Lemma chars_length (a : string) :
  length (Fnmatch.chars a) = String.length a.
Proof. induction a as [|c a IH]; simpl; [done|]. by rewrite IH. Qed.

Lemma translate_go_literal (pat : list ascii) :
  forall (fuel : nat) (res : list Fnmatch.item),
  (length pat <= fuel)%nat ->
  Forall (fun c => c <> "*"%char /\ c <> "?"%char /\ c <> "["%char) pat ->
  Fnmatch.translate_go fuel res pat = res ++ (Fnmatch.Lit <$> pat).
Proof.
  induction pat as [|c pat IH]; intros fuel res Hlen Hall.
  - destruct fuel; simpl; by rewrite app_nil_r.
  - destruct fuel as [|fuel]; [simpl in Hlen; lia|].
    inversion_clear Hall as [|? ? (H1 & H2 & H3) Hrest]. cbn [Fnmatch.translate_go].
    rewrite (proj2 (Ascii.eqb_neq _ _) H1), (proj2 (Ascii.eqb_neq _ _) H2),
            (proj2 (Ascii.eqb_neq _ _) H3).
    rewrite IH by (simpl in Hlen; done || lia).
    by rewrite <- app_assoc.
Qed.

Lemma match_literal (cs n : list ascii) :
  Fnmatch.match_items (Fnmatch.Lit <$> cs) n = true <-> n = cs.
Proof.
  revert n. induction cs as [|c cs IH]; intros [|d n]; simpl; try done.
  rewrite andb_true_iff, IH, Ascii.eqb_eq. split.
  - by intros [-> ->].
  - by intros [= -> ->].
Qed.

(** X12. A pattern without [*], [?] and [\[] is an exact file name: it
    matches the name spelled the same, character for character and so
    with the same case, and no other. *)
Theorem literal_pattern_is_exact (name pat : string) :
  Forall (fun c => c <> "*"%char /\ c <> "?"%char /\ c <> "["%char)
         (Fnmatch.chars pat) ->
  Fnmatch.fnmatch name pat = true <-> name = pat.
Proof.
  intros Hall.
  unfold Fnmatch.fnmatch, Fnmatch.fnmatchcase, Fnmatch.normcase,
         Fnmatch.translate.
  rewrite translate_go_literal by (by rewrite ?chars_length).
  rewrite app_nil_l, match_literal. split; [apply chars_inj|by intros ->].
Qed.

Lemma literal_pattern_is_exact_witness :
  Fnmatch.fnmatch "Results.csv" "results.csv" = true
    <-> "Results.csv" = "results.csv".
Proof.
  apply literal_pattern_is_exact.
  repeat (constructor; [repeat split; discriminate|]). constructor.
Defined.

End ResolverMore.

(** ** More on the packager *)

Section PackagerMore.
Import PackageTdsx.

(** X13. [package_tdsx] itself does not guard its inputs.  Called with
    a descriptor that does not exist, it raises [FileNotFoundError] only
    after the output has been opened, and leaves an empty archive at the
    output path; called with an existing descriptor and a missing
    extract, it leaves an archive holding the descriptor alone.  Either
    way what the output path held before is gone. *)
Theorem package_tdsx_unguarded (fs : filesystem)
    (tds hyper out : Path.path) :
  (fs !! tds = None -> tds <> out ->
     package_tdsx tds hyper out fs
       = (Raise FileNotFoundError, <[out := Archive []]> fs)) /\
  (forall td, fs !! tds = Some td -> fs !! hyper = None -> hyper <> out ->
     exists e1,
       package_tdsx tds hyper out fs
         = (Raise FileNotFoundError,
            <[out := Archive [(Path.name tds, e1)]]> fs)).
Proof.
  split.
  - intros Ht Hne. unfold package_tdsx, zip_open, zip_write.
    rewrite lookup_insert_ne by done. rewrite Ht.
    unfold zip_close. cbn [zpath zentries]. by rewrite insert_insert_eq.
  - intros td Ht Hh Hne.
    destruct (lookup_after_open fs out tds td Ht) as (e1 & H1 & _).
    exists e1. unfold package_tdsx, zip_write. unfold zip_open in *.
    cbn [snd] in H1. rewrite H1. cbn [zpath zentries].
    rewrite lookup_insert_ne by done. rewrite Hh.
    unfold zip_close. cbn [zpath zentries app]. by rewrite insert_insert_eq.
Qed.

Lemma package_tdsx_unguarded_witness :
  package_tdsx ["templates"; "a.tds"] ["outputs"; "b.hyper"]
               ["packaged"; "out.tdsx"]
               {[ ["packaged"; "out.tdsx"] := Bytes "previous release" ]}
    = (Raise FileNotFoundError,
       <[ ["packaged"; "out.tdsx"] := Archive [] ]>
         {[ ["packaged"; "out.tdsx"] := Bytes "previous release" ]}).
Proof.
  apply (proj1 (package_tdsx_unguarded _ _ _ _)).
  - vm_compute. reflexivity.
  - discriminate.
Defined.

End PackagerMore.

(** ** The validator's report *)

Section ValidatorMain.
Import BuildHyperExtracts ValidateCsvSchemas.

Lemma lookup_schema_beneath (root dirs : Path.path) (name : string)
    (sm : schema_map) :
  exists schema,
    lookup_schema root (root ++ dirs ++ [name]) sm = Ret schema /\
    Path.relative_to (root ++ dirs ++ [name]) root = Ret (dirs ++ [name]).
Proof.
  unfold lookup_schema. rewrite relative_to_app. rewrite app_assoc.
  destruct (parent_name_snoc (root ++ dirs) name) as [-> ->].
  rewrite relative_to_app. cbn [mbind exc_bind].
  destruct (sm !! _); eauto.
Qed.

Lemma ErrorLine_printed (rel : Path.path) (errs : list error) (e : error) :
  ErrorLine e ∈ print_violations rel errs -> e ∈ errs.
Proof.
  unfold print_violations. rewrite elem_of_cons, elem_of_app.
  intros [H|[H|H]]; [done| |].
  - change (map ?g ?l) with (g <$> l) in H.
    apply list_elem_of_fmap in H as (e' & [= ->] & H).
    by apply (subseteq_take 50 errs).
  - destruct (50 <? _); [|by apply elem_of_nil in H].
    by apply list_elem_of_singleton in H.
Qed.

Lemma AllConform_not_printed (rel : Path.path) (errs : list error) :
  AllConform ∉ print_violations rel errs.
Proof.
  unfold print_violations. rewrite not_elem_of_cons, not_elem_of_app.
  split; [done|]. split.
  - change (map ?g ?l) with (g <$> l). by intros (? & ? & _)%list_elem_of_fmap.
  - destruct (50 <? _); [|apply not_elem_of_nil].
    by intros ?%list_elem_of_singleton.
Qed.

Lemma truthy_schema_cases (schema : option mapping) :
  (truthy_schema schema = None /\ (schema = None \/ schema = Some [])) \/
  (exists m, truthy_schema schema = Some m /\ schema = Some m /\ m <> []).
Proof.
  destruct schema as [[|c m]|]; cbn; [by auto| |by auto].
  right. exists (c :: m). repeat split; congruence.
Qed.

Lemma validate_csv_empty_mapping (f : Csv.csv_file) :
  validate_csv f [] = [].
Proof.
  unfold validate_csv. cbn.
  generalize (enumerate_from 2 (Csv.rows f)). intros l.
  induction l as [|[n r] l IH]; [done|]. cbn. by rewrite IH.
Qed.

Lemma main_loop_spec (root : Path.path) (sm : schema_map)
    (rest done : list (Path.path * Csv.csv_file)) (st : list printed * Z) :
  Forall (fun cf => exists dirs name, cf.1 = root ++ dirs ++ [name]) rest ->
  0 <= st.2 ->
  (st.2 = 0 <-> clean_files root sm done) ->
  AllConform ∉ st.1 ->
  (forall e, ErrorLine e ∈ st.1 -> real_error root sm done e) ->
  exists st',
    main_loop root sm rest st = Ret st' /\
    0 <= st'.2 /\
    (st'.2 = 0 <-> clean_files root sm (done ++ rest)) /\
    (AllConform ∉ st'.1) /\
    (forall e, ErrorLine e ∈ st'.1 -> real_error root sm (done ++ rest) e).
Proof.
  intros Hrest. revert done st.
  induction Hrest as [|[p f] rest (dirs & name & Hp) _ IH];
    intros done st Hnn Hclean Hall Herr.
  - exists st. rewrite app_nil_r. by cbn.
  - cbn in Hp. subst p.
    destruct (lookup_schema_beneath root dirs name sm) as (schema & Hl & Hr).
    replace (done ++ (root ++ dirs ++ [name], f) :: rest)
      with ((done ++ [(root ++ dirs ++ [name], f)]) ++ rest)
      by (by rewrite <- app_assoc).
    assert (Hkeep : forall e, real_error root sm done e ->
              real_error root sm (done ++ [(root ++ dirs ++ [name], f)]) e).
    { intros e (p & f' & m & Hin & Hm & He). exists p, f', m.
      rewrite elem_of_app. auto. }
    assert (Hsame : (forall m, schema = Some m -> validate_csv f m = []) ->
              (clean_files root sm done <->
               clean_files root sm (done ++ [(root ++ dirs ++ [name], f)]))).
    { intros Hf. split.
      - intros Hc p f' m [Hin|Hin%list_elem_of_singleton]%elem_of_app Hm.
        + by eapply Hc.
        + injection Hin as -> ->. rewrite Hl in Hm. injection Hm as ->.
          by apply Hf.
      - intros Hc p f' m Hin Hm. eapply Hc; [|done].
        rewrite elem_of_app. by left. }
    cbn [main_loop]. unfold main_step. cbn [fst snd].
    rewrite Hl. cbn [mbind exc_bind].
    destruct (truthy_schema_cases schema)
      as [[-> Hs]|(m & -> & -> & Hm)].
    + cbn [mbind exc_bind]. apply IH; [done| |done|by auto].
      rewrite Hclean. apply Hsame. intros m ->.
      destruct Hs as [|[= ->]]; [done|]. apply validate_csv_empty_mapping.
    + destruct (validate_csv f m) as [|e0 errs] eqn:Hv.
      * cbn [nonnil mbind exc_bind]. apply IH; [done| |done|by auto].
        rewrite Hclean. apply Hsame. by intros ? [= <-].
      * cbn [nonnil]. rewrite Hr. cbn [mbind exc_bind].
        apply IH; cbn [fst snd].
        -- lia.
        -- split; [lia|]. intros Hc. exfalso.
           specialize (Hc (root ++ dirs ++ [name]) f m).
           rewrite Hv in Hc. discriminate Hc; [|done].
           rewrite elem_of_app. right. apply list_elem_of_here.
        -- rewrite not_elem_of_app. split; [done|].
           apply AllConform_not_printed.
        -- intros e [He|He]%elem_of_app; [by auto|].
           apply ErrorLine_printed in He.
           exists (root ++ dirs ++ [name]), f, m.
           rewrite elem_of_app, Hv. split; [|done].
           right. apply list_elem_of_here.
Qed.

(** X14. When every CSV lies beneath the root, the validator's report
    never raises; it ends with the all-conform line exactly when every
    file with a resolved schema validates without error (files without
    a schema, or with an empty mapping, are skipped silently); and every
    error line it prints is an error of some file under the schema
    resolved for it. *)
Theorem validator_report_sound (root : Path.path) (sm : schema_map)
    (csvs : list (Path.path * Csv.csv_file)) :
  Forall (fun cf => exists dirs name, cf.1 = root ++ dirs ++ [name]) csvs ->
  exists out,
    ValidateCsvSchemas.main root sm csvs = Ret out /\
    (AllConform ∈ out <-> clean_files root sm csvs) /\
    (forall e, ErrorLine e ∈ out -> real_error root sm csvs e).
Proof.
  intros Hb.
  destruct (main_loop_spec root sm csvs [] ([], 0) Hb)
    as (st & Hloop & Hnn & Hclean & Hall & Herr).
  - done.
  - split; [|done]. intros _ p f m Hin. by apply elem_of_nil in Hin.
  - apply not_elem_of_nil.
  - intros e He. by apply elem_of_nil in He.
  - cbn [app] in *. unfold ValidateCsvSchemas.main. rewrite Hloop.
    cbn [mbind exc_bind]. eexists. split; [done|].
    destruct (st.2 =? 0) eqn:Hz.
    + apply Z.eqb_eq in Hz. split.
      * split; [intros _; by apply Hclean|].
        intros _. rewrite elem_of_app. right. apply list_elem_of_here.
      * intros e [He|He%list_elem_of_singleton]%elem_of_app; [by auto|done].
    + apply Z.eqb_neq in Hz. split; [|done].
      split; [done|]. intros Hc. by apply Hclean in Hc.
Qed.

Lemma validator_report_sound_witness :
  let root := ["data"] in
  let f : Csv.csv_file := [["n"]; ["1"]; ["x"]] in
  let sm : schema_map := {[ "t" := [("*.csv", [("n", "int")])] ]} in
  let csvs := [(["data"; "t"; "a.csv"], f)] in
  Forall (fun cf => exists dirs name, cf.1 = root ++ dirs ++ [name]) csvs /\
  exists out,
    ValidateCsvSchemas.main root sm csvs = Ret out /\
    (AllConform ∈ out <-> clean_files root sm csvs) /\
    (forall e, ErrorLine e ∈ out -> real_error root sm csvs e).
Proof.
  intros root f sm csvs.
  assert (Hb : Forall (fun cf : Path.path * Csv.csv_file =>
                         exists dirs name, cf.1 = root ++ dirs ++ [name]) csvs).
  { constructor; [|constructor]. by exists ["t"], "a.csv". }
  split; [exact Hb|]. exact (validator_report_sound root sm csvs Hb).
Defined.

End ValidatorMain.
